(** * draWG: the host-authoritative game-state engine

    A shallow embedding of [app/lib/types.ts], [app/lib/networking.ts] and
    [app/lib/useGameState.ts], and the properties of the host reducer, of the
    sentence assignment and of the snapshot protocol.

    Conventions of the embedding:
    - a JavaScript [string] is a [string], an optional field is an [option];
    - [Record<string, T>] is a [gmap string T]; the spread
      [{...m, [k]: v}] is [<[k:=v]> m];
    - a (possibly sparse) JavaScript array of numbers is a
      [list (option Z)], [None] standing for a hole;
    - [Map<string, DataConnection>] is an association list in insertion
      order, which is the order [Map.prototype.forEach] visits;
    - the messages put on the wire by a handler are returned as a list of
      [(remote peer, message)] pairs, in the order of the [conn.send] calls;
    - [Math.random()] is a stream of rationals, read with a counter. *)

From Stdlib Require Import QArith Qround.
From stdpp Require Import gmap strings list fin_maps.

Local Open Scope Z_scope.

(** ** [types.ts] *)

Inductive GamePhase :=
  | lobby | sentence_submission | quiz | drawing | slideshow | leaderboard.

Record Player := mkPlayer {
  id : string;
  name : string;
  isHost : bool;
  sentence : option string;
  quizScore : nat;
  drawingDataUrl : option string;
  assignedSentence : option string;
  thumbsUp : nat;
  thumbsDown : nat
}.

(** The field [id] of a question is [q_id] here, [id] being the player's. *)
Record QuizQuestion := mkQuestion {
  q_id : Z;
  question : string;
  options : list string;
  correctIndex : Z
}.

(** The anonymous type [{ thumbsUp: string[]; thumbsDown: string[] }] of the
    values of [GameState.reactions]. *)
Record Voters := mkVoters {
  votersUp : list string;
  votersDown : list string
}.

Record GameState := mkGameState {
  phase : GamePhase;
  roomCode : string;
  players : list Player;
  currentQuestionIndex : Z;
  quizAnswers : gmap string (list (option Z));
  quizTimeRemaining : Z;
  drawingTimeRemaining : Z;
  currentSlideIndex : Z;
  slideTimeRemaining : Z;
  reactions : gmap string Voters
}.

Inductive ReactionType := thumbsUpR | thumbsDownR.

(** The message types that no [case] of the host's [switch] names. *)
Inductive OtherType :=
  | player_left | start_game | start_quiz | start_drawing
  | start_slideshow | end_game | update_sentence.

(** [GameMessage]: [type] and [payload] together, one payload shape per
    type, as each [case] casts it. [questionIndex] is an array index (the
    sender's [currentQuestionIndex]), [answerIndex] any integer. *)
Inductive MessageBody :=
  | player_joined (playerName : string)
  | submit_sentence (sentence : string)
  | submit_quiz_answer (questionIndex : nat) (answerIndex : Z)
  | submit_drawing (drawingDataUrl : string)
  | submit_reaction (targetPlayerId : string) (reactionType : ReactionType)
  | request_sync
  | game_state_update (payload : GameState)
  | other_message (type : OtherType).

Record GameMessage := mkMessage {
  body : MessageBody;
  senderId : string
}.

Definition QUIZ_QUESTIONS : list QuizQuestion :=
  [ mkQuestion 1 "What is the capital of France?"
      ["London"; "Berlin"; "Paris"; "Madrid"] 2;
    mkQuestion 2 "Which planet is known as the Red Planet?"
      ["Venus"; "Mars"; "Jupiter"; "Saturn"] 1;
    mkQuestion 3 "What is 7 × 8?"
      ["54"; "56"; "58"; "64"] 1;
    mkQuestion 4 "Who painted the Mona Lisa?"
      ["Van Gogh"; "Picasso"; "Da Vinci"; "Michelangelo"] 2;
    mkQuestion 5 "What is the largest ocean on Earth?"
      ["Atlantic"; "Indian"; "Arctic"; "Pacific"] 3;
    mkQuestion 6 "How many continents are there?"
      ["5"; "6"; "7"; "8"] 2;
    mkQuestion 7 "What gas do plants absorb from the air?"
      ["Oxygen"; "Nitrogen"; "Carbon Dioxide"; "Hydrogen"] 2;
    mkQuestion 8 "Which animal is known as the 'King of the Jungle'?"
      ["Tiger"; "Elephant"; "Lion"; "Gorilla"] 2 ].

Definition QUIZ_DURATION : Z := 90.
Definition DRAWING_DURATION : Z := 120.

Definition createInitialGameState (roomCode : string) : GameState :=
  {| phase := lobby;
     roomCode := roomCode;
     players := [];
     currentQuestionIndex := 0;
     quizAnswers := ∅;
     quizTimeRemaining := QUIZ_DURATION;
     drawingTimeRemaining := DRAWING_DURATION;
     currentSlideIndex := 0;
     slideTimeRemaining := 5;
     reactions := ∅ |}.

(** ** Object spreads [{...p, field: v}] *)

Definition with_sentence (p : Player) (s : option string) : Player :=
  mkPlayer (id p) (name p) (isHost p) s (quizScore p) (drawingDataUrl p)
    (assignedSentence p) (thumbsUp p) (thumbsDown p).

Definition with_quizScore (p : Player) (score : nat) : Player :=
  mkPlayer (id p) (name p) (isHost p) (sentence p) score (drawingDataUrl p)
    (assignedSentence p) (thumbsUp p) (thumbsDown p).

Definition with_drawingDataUrl (p : Player) (d : option string) : Player :=
  mkPlayer (id p) (name p) (isHost p) (sentence p) (quizScore p) d
    (assignedSentence p) (thumbsUp p) (thumbsDown p).

Definition with_assignedSentence (p : Player) (a : option string) : Player :=
  mkPlayer (id p) (name p) (isHost p) (sentence p) (quizScore p)
    (drawingDataUrl p) a (thumbsUp p) (thumbsDown p).

Definition with_thumbs (p : Player) (up down : nat) : Player :=
  mkPlayer (id p) (name p) (isHost p) (sentence p) (quizScore p)
    (drawingDataUrl p) (assignedSentence p) up down.

Definition with_players (st : GameState) (ps : list Player) : GameState :=
  mkGameState (phase st) (roomCode st) ps (currentQuestionIndex st)
    (quizAnswers st) (quizTimeRemaining st) (drawingTimeRemaining st)
    (currentSlideIndex st) (slideTimeRemaining st) (reactions st).

Definition with_quizAnswers (st : GameState)
    (qa : gmap string (list (option Z))) : GameState :=
  mkGameState (phase st) (roomCode st) (players st) (currentQuestionIndex st)
    qa (quizTimeRemaining st) (drawingTimeRemaining st)
    (currentSlideIndex st) (slideTimeRemaining st) (reactions st).

Definition with_reactions (st : GameState) (r : gmap string Voters)
    : GameState :=
  mkGameState (phase st) (roomCode st) (players st) (currentQuestionIndex st)
    (quizAnswers st) (quizTimeRemaining st) (drawingTimeRemaining st)
    (currentSlideIndex st) (slideTimeRemaining st) r.

(** ** [networking.ts] *)

Record DataConnection := mkConn {
  peer : string;
  open : bool
}.

(** One [conn.send(message)]: the remote end of the connection and the
    message. *)
Definition Sent : Type := string * GameMessage.

Module GameNetwork.

Record t := mk {
  connections : list (string * DataConnection);
  hostConnection : option DataConnection;
  playerId : string;
  isHost : bool
}.

(** [Map.prototype.get] *)
Fixpoint get (m : list (string * DataConnection)) (k : string)
    : option DataConnection :=
  match m with
  | [] => None
  | (k', c) :: m' => if bool_decide (k' = k) then Some c else get m' k
  end.

Definition send (n : t) (message : GameMessage) : list Sent :=
  if isHost n then
    (* Host broadcasts to all players *)
    flat_map (fun kc : string * DataConnection =>
                if open (snd kc) then [(peer (snd kc), message)] else [])
             (connections n)
  else
    match hostConnection n with
    | Some c => if open c then [(peer c, message)] else []
    | None => []
    end.

Definition sendToPlayer (n : t) (playerId : string) (message : GameMessage)
    : list Sent :=
  match get (connections n) playerId with
  | Some conn => if open conn then [(peer conn, message)] else []
  | None => []
  end.

Definition broadcastGameState (n : t) (state : GameState) : list Sent :=
  send n (mkMessage (game_state_update state) (playerId n)).

End GameNetwork.

(** ** [useGameState.ts]: the host's reducer *)

(** [a[i] = x] on a JavaScript array: an index past the end extends the
    array, leaving holes in between. *)
Fixpoint array_set {A} (a : list (option A)) (i : nat) (x : A)
    : list (option A) :=
  match i, a with
  | O, [] => [Some x]
  | O, _ :: a' => Some x :: a'
  | S i', [] => None :: array_set [] i' x
  | S i', y :: a' => y :: array_set a' i' x
  end.

(** [QUIZ_QUESTIONS[idx]?.correctIndex] *)
Definition correctIndex_at (idx : nat) : option Z :=
  correctIndex <$> (QUIZ_QUESTIONS !! idx).

(** [let score = 0; playerAnswers.forEach((answer, idx) => { if (answer ===
    QUIZ_QUESTIONS[idx]?.correctIndex) score++; })]: [forEach] skips the
    holes; [idx] is the index of the head of [answers]. *)
Fixpoint forEach_score (answers : list (option Z)) (idx : nat) (score : nat)
    : nat :=
  match answers with
  | [] => score
  | None :: rest => forEach_score rest (S idx) score
  | Some answer :: rest =>
      forEach_score rest (S idx)
        (if bool_decide (Some answer = correctIndex_at idx)
         then S score else score)
  end.

Definition newPlayer (senderId playerName : string) : Player :=
  {| id := senderId; name := playerName; isHost := false;
     sentence := None; quizScore := 0; drawingDataUrl := None;
     assignedSentence := None; thumbsUp := 0; thumbsDown := 0 |}.

(** [reactions.thumbsUp.filter((id) => id !== senderId)] *)
Definition without (senderId : string) (ids : list string) : list string :=
  List.filter (fun i => negb (bool_decide (i = senderId))) ids.

(** The three statements of the [submit_reaction] case that update the
    target's entry: both filters, then the [push]. *)
Definition react (r : Voters) (senderId : string) (reactionType : ReactionType)
    : Voters :=
  let up := without senderId (votersUp r) in
  let down := without senderId (votersDown r) in
  match reactionType with
  | thumbsUpR => mkVoters (up ++ [senderId]) down
  | thumbsDownR => mkVoters up (down ++ [senderId])
  end.

(** The updater that the host branch of [handleMessage] passes to
    [setGameState], for a non-null [prevState]: the new state and the
    messages sent. *)
Definition hostReducer (network : GameNetwork.t) (message : GameMessage)
    (prevState : GameState) : GameState * list Sent :=
  let broadcast newState :=
    (newState, GameNetwork.broadcastGameState network newState) in
  let sender := senderId message in
  match body message with
  | player_joined playerName =>
      broadcast
        (with_players prevState (players prevState ++ [newPlayer sender playerName]))
  | submit_sentence sentence =>
      broadcast
        (with_players prevState
           (map (fun p => if bool_decide (id p = sender)
                          then with_sentence p (Some sentence) else p)
                (players prevState)))
  | submit_quiz_answer questionIndex answerIndex =>
      let playerAnswers :=
        array_set (default [] (quizAnswers prevState !! sender))
                  questionIndex answerIndex in
      let score := forEach_score playerAnswers 0 0 in
      broadcast
        (with_players
           (with_quizAnswers prevState
              (<[sender := playerAnswers]> (quizAnswers prevState)))
           (map (fun p => if bool_decide (id p = sender)
                          then with_quizScore p score else p)
                (players prevState)))
  | submit_drawing drawingDataUrl =>
      broadcast
        (with_players prevState
           (map (fun p => if bool_decide (id p = sender)
                          then with_drawingDataUrl p (Some drawingDataUrl)
                          else p)
                (players prevState)))
  | submit_reaction targetPlayerId reactionType =>
      let r0 := default (mkVoters [] []) (reactions prevState !! targetPlayerId) in
      let newReactions :=
        <[targetPlayerId := react r0 sender reactionType]> (reactions prevState) in
      broadcast
        (with_players
           (with_reactions prevState newReactions)
           (map (fun p =>
                   if bool_decide (id p = targetPlayerId) then
                     let r := default (mkVoters [] []) (newReactions !! id p) in
                     with_thumbs p (length (votersUp r)) (length (votersDown r))
                   else p)
                (players prevState)))
  | request_sync =>
      (prevState,
       GameNetwork.sendToPlayer network sender
         (mkMessage (game_state_update prevState) (GameNetwork.playerId network)))
  | game_state_update _ | other_message _ =>
      broadcast prevState
  end.

(** The React state of the hook that the handlers read and write. *)
Record HookState := mkHook {
  gameState : option GameState;
  localPlayer : option Player
}.

Definition handleMessage (network : GameNetwork.t) (hs : HookState)
    (message : GameMessage) : HookState * list Sent :=
  if GameNetwork.isHost network then
    match gameState hs with
    | None => (hs, [])
    | Some prevState =>
        let '(newState, sent) := hostReducer network message prevState in
        (mkHook (Some newState) (localPlayer hs), sent)
    end
  else
    match body message with
    | game_state_update newState =>
        (mkHook (Some newState)
           (match find (fun p => bool_decide (id p = GameNetwork.playerId network))
                       (players newState) with
            | Some player => Some player
            | None => localPlayer hs
            end), [])
    | _ => (hs, [])
    end.

(** The handler registered with [network.onDisconnection] in [createRoom]. *)
Definition onDisconnection (network : GameNetwork.t) (hs : HookState)
    (playerId : string) : HookState * list Sent :=
  match gameState hs with
  | None => (hs, [])
  | Some prev =>
      let newState :=
        with_players prev
          (List.filter (fun p => negb (bool_decide (id p = playerId)))
                       (players prev)) in
      (mkHook (Some newState) (localPlayer hs),
       GameNetwork.broadcastGameState network newState)
  end.

(** ** [useGameState.ts]: the host's phase transitions *)

Definition with_phase (st : GameState) (ph : GamePhase) : GameState :=
  mkGameState ph (roomCode st) (players st) (currentQuestionIndex st)
    (quizAnswers st) (quizTimeRemaining st) (drawingTimeRemaining st)
    (currentSlideIndex st) (slideTimeRemaining st) (reactions st).

Definition startSentenceSubmission (network : GameNetwork.t) (hs : HookState)
    : HookState * list Sent :=
  if negb (GameNetwork.isHost network) then (hs, []) else
  match gameState hs with
  | None => (hs, [])
  | Some gameState =>
      let newState := with_phase gameState sentence_submission in
      (mkHook (Some newState) (localPlayer hs),
       GameNetwork.broadcastGameState network newState)
  end.

Definition updatePlayerSentence (network : GameNetwork.t) (hs : HookState)
    (playerId sentence : string) : HookState * list Sent :=
  if negb (GameNetwork.isHost network) then (hs, []) else
  match gameState hs with
  | None => (hs, [])
  | Some gameState =>
      let newState :=
        with_players gameState
          (map (fun p => if bool_decide (id p = playerId)
                         then with_sentence p (Some sentence) else p)
               (players gameState)) in
      (mkHook (Some newState) (localPlayer hs),
       GameNetwork.broadcastGameState network newState)
  end.

Definition startQuiz (network : GameNetwork.t) (hs : HookState)
    : HookState * list Sent :=
  if negb (GameNetwork.isHost network) then (hs, []) else
  match gameState hs with
  | None => (hs, [])
  | Some gameState =>
      let newState :=
        mkGameState quiz (roomCode gameState) (players gameState) 0
          (quizAnswers gameState) QUIZ_DURATION
          (drawingTimeRemaining gameState) (currentSlideIndex gameState)
          (slideTimeRemaining gameState) (reactions gameState) in
      (mkHook (Some newState) (localPlayer hs),
       GameNetwork.broadcastGameState network newState)
  end.

(** *** The derangement of the sentences *)

Module Item.
Record t := mk {
  sentence : string;
  authorId : string
}.
End Item.

(** [[result[i], result[j]] = [result[j], result[i]]]. The shuffle only
    calls it with [j <= i < result.length], where both elements exist. *)
Definition swap (result : list Item.t) (i j : nat) : list Item.t :=
  match result !! i, result !! j with
  | Some ri, Some rj => <[j := ri]> (<[i := rj]> result)
  | _, _ => result
  end.

(** [Math.floor(r * (i + 1))] for [r] a value of [Math.random()]. *)
Definition random_index (r : Q) (i : nat) : nat :=
  Z.to_nat (Qfloor (r * inject_Z (Z.of_nat (i + 1)))).

(** [result.every((item, index) => item.authorId !== items[index].authorId)];
    [index] is the index of the head of [result]. The two arrays have the
    same length, so [items[index]] is never undefined. *)
Fixpoint every_differs (result items : list Item.t) (index : nat) : bool :=
  match result with
  | [] => true
  | item :: rest =>
      match items !! index with
      | Some original =>
          negb (bool_decide (Item.authorId item = Item.authorId original))
          && every_differs rest items (S index)
      | None => false
      end
  end.

Section Random.

(** [random k] is the value of the [k]-th call of [Math.random()], counted
    from the call of [createDerangement] on. *)
Variable random : nat → Q.

(** The Fisher-Yates [for] loop, from [i] down to 1; [k] random numbers
    were drawn before, the new count is returned with the array. *)
Fixpoint shuffle (i : nat) (result : list Item.t) (k : nat)
    : list Item.t * nat :=
  match i with
  | O => (result, k)
  | S i' =>
      let j := random_index (random k) i in
      shuffle i' (swap result i j) (S k)
  end.

(** The [while (!isDerangement && attempts < 100)] loop, entered with
    [isDerangement] false and [remaining = 100 - attempts]: the array and
    [isDerangement] when the loop is left. *)
Fixpoint shuffle_attempts (remaining : nat) (items result : list Item.t)
    (k : nat) : list Item.t * bool :=
  match remaining with
  | O => (result, false)
  | S remaining' =>
      let '(result', k') := shuffle (length result - 1) result k in
      if every_differs result' items 0
      then (result', true)
      else shuffle_attempts remaining' items result' k'
  end.

(** The fallback [rotated.push(rotated.shift()!)] is only reached with at
    least two items. *)
Definition createDerangement (items : list Item.t) : list Item.t :=
  if (length items <? 2)%nat then items else
  let '(result, isDerangement) := shuffle_attempts 100 items items 0 in
  if negb isDerangement then
    match items with
    | first :: rest => rest ++ [first]
    | [] => []
    end
  else result.

End Random.

(** *** [startDrawingPhase] *)

Inductive JsError := TypeError.

(** A call either returns or throws. *)
Inductive outcome (A : Type) :=
  | Returns (a : A)
  | Throws (e : JsError).
Arguments Returns {A} a.
Arguments Throws {A} e.

(** Truthiness of an optional string: [undefined] and the empty string
    are falsy. *)
Definition truthy (s : option string) : bool :=
  match s with
  | Some s => negb (bool_decide (s = ""))
  | None => false
  end.

(** [derangedSentences[index % derangedSentences.length]]: the remainder
    by zero is [NaN], and an array has nothing at [NaN]. *)
Definition at_mod (derangedSentences : list Item.t) (index : nat)
    : option Item.t :=
  if (length derangedSentences =? 0)%nat then None
  else derangedSentences !! (index `mod` length derangedSentences)%nat.

(** The [participants.forEach] that fills [assignments]; reading
    [.sentence] of [undefined] throws. *)
Fixpoint assign (participants : list Player) (index : nat)
    (derangedSentences : list Item.t) (assignments : gmap string string)
    : outcome (gmap string string) :=
  match participants with
  | [] => Returns assignments
  | player :: rest =>
      match at_mod derangedSentences index with
      | None => Throws TypeError
      | Some assignedSentence =>
          assign rest (S index) derangedSentences
            (<[id player := Item.sentence assignedSentence]> assignments)
      end
  end.

Definition startDrawingPhase (random : nat → Q) (network : GameNetwork.t)
    (hs : HookState) : outcome (HookState * list Sent) :=
  if negb (GameNetwork.isHost network) then Returns (hs, []) else
  match gameState hs with
  | None => Returns (hs, [])
  | Some gameState =>
      let participants :=
        List.filter (fun p => negb (isHost p)) (players gameState) in
      let playersWithSentences :=
        List.filter (fun p => truthy (sentence p)) participants in
      let sentences :=
        map (fun p => Item.mk (default "" (sentence p)) (id p))
            playersWithSentences in
      let derangedSentences := createDerangement random sentences in
      match assign participants 0 derangedSentences ∅ with
      | Throws e => Throws e
      | Returns assignments =>
          let assigned (p : Player) :=
            with_assignedSentence p
              (if isHost p then None else assignments !! id p) in
          let newState :=
            mkGameState drawing (roomCode gameState)
              (map assigned (players gameState))
              (currentQuestionIndex gameState) (quizAnswers gameState)
              (quizTimeRemaining gameState) DRAWING_DURATION
              (currentSlideIndex gameState) (slideTimeRemaining gameState)
              (reactions gameState) in
          Returns (mkHook (Some newState) (assigned <$> localPlayer hs),
                   GameNetwork.broadcastGameState network newState)
      end
  end.

(** ** [types.ts]: the drawing tools and colours a score unlocks *)

Inductive ToolType := pen | eraser | fill | brush | spray.

Module DrawingTool.
Record t := mk {
  name : string;
  icon : string;
  color : string;
  size : Z;
  type : ToolType;
  unlockThreshold : nat
}.
End DrawingTool.

Definition BASE_TOOLS : list DrawingTool.t :=
  [ DrawingTool.mk "Pencil" "✏️" "#000000" 3 pen 0 ].

Definition UNLOCKABLE_TOOLS : list DrawingTool.t :=
  [ DrawingTool.mk "Eraser" "🧹" "#ffffff" 20 eraser 1;
    DrawingTool.mk "Fill" "🪣" "#000000" 0 fill 2;
    DrawingTool.mk "Brush" "🖌️" "#000000" 12 brush 3;
    DrawingTool.mk "Fine Pen" "🖊️" "#000000" 1 pen 4 ].

Module UnlockableColor.
Record t := mk {
  name : string;
  color : string;
  unlockThreshold : nat
}.
End UnlockableColor.

Definition UNLOCKABLE_COLORS : list UnlockableColor.t :=
  [ UnlockableColor.mk "Red" "#ef4444" 5;
    UnlockableColor.mk "Blue" "#3b82f6" 6;
    UnlockableColor.mk "Green" "#22c55e" 7;
    UnlockableColor.mk "Yellow" "#eab308" 8 ].

Definition getUnlockedColors (quizScore : nat) : list UnlockableColor.t :=
  List.filter (fun c => (UnlockableColor.unlockThreshold c <=? quizScore)%nat)
              UNLOCKABLE_COLORS.

(** The [for ... of] loop pushes, in order, the tools whose threshold the
    score reaches. *)
Definition getUnlockedTools (quizScore : nat) : list DrawingTool.t :=
  BASE_TOOLS
  ++ List.filter (fun tool => (DrawingTool.unlockThreshold tool <=? quizScore)%nat)
                 UNLOCKABLE_TOOLS.

(** ** [networking.ts]: room codes and the connection table *)

Definition chars : string := "ABCDEFGHJKLMNPQRSTUVWXYZ23456789".

(** [code += chars[i]]: what the string grows by. Outside the string
    [chars[i]] is [undefined], which [+=] appends as text. *)
Definition char_at (s : string) (i : Z) : string :=
  if (i <? 0)%Z then "undefined"
  else match String.get (Z.to_nat i) s with
       | Some c => String c EmptyString
       | None => "undefined"
       end.

(** [n] more rounds of the [for] loop of [generateRoomCode]; [k] random
    numbers were drawn before. *)
Fixpoint generateRoomCode_loop (random : nat → Q) (n k : nat) (code : string)
    : string :=
  match n with
  | O => code
  | S n' =>
      let i := Qfloor (random k * inject_Z (Z.of_nat (String.length chars))) in
      generateRoomCode_loop random n' (S k) (String.append code (char_at chars i))
  end.

Definition generateRoomCode (random : nat → Q) : string :=
  generateRoomCode_loop random 4 0 "".

(** [Map.prototype.set]: the value of an existing key is replaced where it
    stands, a new key goes to the end. *)
Fixpoint table_set (m : list (string * DataConnection)) (k : string)
    (c : DataConnection) : list (string * DataConnection) :=
  match m with
  | [] => [(k, c)]
  | (k', c') :: m' =>
      if bool_decide (k' = k) then (k, c) :: m' else (k', c') :: table_set m' k c
  end.

(** [Map.prototype.delete] *)
Definition table_delete (m : list (string * DataConnection)) (k : string)
    : list (string * DataConnection) :=
  List.filter (fun kc : string * DataConnection => negb (bool_decide (fst kc = k))) m.

Definition with_connections (n : GameNetwork.t)
    (conns : list (string * DataConnection)) : GameNetwork.t :=
  GameNetwork.mk conns (GameNetwork.hostConnection n) (GameNetwork.playerId n)
                 (GameNetwork.isHost n).

(** [setupConnection]: the ["open"] event of a connection. The connection
    handlers registered by the hook only log. *)
Definition onConnOpen (n : GameNetwork.t) (conn : DataConnection)
    : GameNetwork.t :=
  with_connections n (table_set (GameNetwork.connections n) (peer conn) conn).

(** [getConnectionCount] *)
Definition getConnectionCount (n : GameNetwork.t) : nat :=
  length (GameNetwork.connections n).

(** ** [useGameState.ts]: the intents of the local player *)

Definition with_localPlayer (hs : HookState) (lp : option Player) : HookState :=
  mkHook (gameState hs) lp.

(** The body shared by the host branches: a [setGameState] updater that
    does nothing on a null state and otherwise installs [f prev] and
    broadcasts it. *)
Definition update_and_broadcast (network : GameNetwork.t) (hs : HookState)
    (f : GameState → GameState) : HookState * list Sent :=
  match gameState hs with
  | None => (hs, [])
  | Some prev =>
      let newState := f prev in
      (mkHook (Some newState) (localPlayer hs),
       GameNetwork.broadcastGameState network newState)
  end.

Definition submitSentence (network : GameNetwork.t) (hs : HookState)
    (sentence : string) : HookState * list Sent :=
  if GameNetwork.isHost network then
    let '(hs', sent) :=
      update_and_broadcast network hs (fun prev =>
        with_players prev
          (map (fun p => if bool_decide (id p = GameNetwork.playerId network)
                         then with_sentence p (Some sentence) else p)
               (players prev))) in
    (with_localPlayer hs'
       ((fun prev => with_sentence prev (Some sentence)) <$> localPlayer hs'),
     sent)
  else
    (hs, GameNetwork.send network
           (mkMessage (submit_sentence sentence) (GameNetwork.playerId network))).

(** In the host branch the score of the local player is computed a second
    time, from the array of the state the callback closed over; it is the
    array the first updater wrote to (or, for a first answer, another empty
    one), so both computations read the same answers. *)
Definition submitQuizAnswer (network : GameNetwork.t) (hs : HookState)
    (questionIndex : nat) (answerIndex : Z) : HookState * list Sent :=
  if GameNetwork.isHost network then
    let answers_of (st : option GameState) :=
      array_set
        (default [] (st ≫= fun s => quizAnswers s !! GameNetwork.playerId network))
        questionIndex answerIndex in
    let '(hs', sent) :=
      update_and_broadcast network hs (fun prev =>
        let playerAnswers := answers_of (Some prev) in
        let score := forEach_score playerAnswers 0 0 in
        with_players
          (with_quizAnswers prev
             (<[GameNetwork.playerId network := playerAnswers]> (quizAnswers prev)))
          (map (fun p => if bool_decide (id p = GameNetwork.playerId network)
                         then with_quizScore p score else p)
               (players prev))) in
    let score := forEach_score (answers_of (gameState hs)) 0 0 in
    (with_localPlayer hs'
       ((fun prev => with_quizScore prev score) <$> localPlayer hs'),
     sent)
  else
    (hs, GameNetwork.send network
           (mkMessage (submit_quiz_answer questionIndex answerIndex)
                      (GameNetwork.playerId network))).

Definition submitDrawing (network : GameNetwork.t) (hs : HookState)
    (drawingDataUrl : string) : HookState * list Sent :=
  if GameNetwork.isHost network then
    let '(hs', sent) :=
      update_and_broadcast network hs (fun prev =>
        with_players prev
          (map (fun p => if bool_decide (id p = GameNetwork.playerId network)
                         then with_drawingDataUrl p (Some drawingDataUrl) else p)
               (players prev))) in
    (with_localPlayer hs'
       ((fun prev => with_drawingDataUrl prev (Some drawingDataUrl))
          <$> localPlayer hs'),
     sent)
  else
    (hs, GameNetwork.send network
           (mkMessage (submit_drawing drawingDataUrl) (GameNetwork.playerId network))).

Definition submitReaction (network : GameNetwork.t) (hs : HookState)
    (targetPlayerId : string) (reactionType : ReactionType)
    : HookState * list Sent :=
  if GameNetwork.isHost network then
    update_and_broadcast network hs (fun prev =>
      let r0 := default (mkVoters [] []) (reactions prev !! targetPlayerId) in
      let newReactions :=
        <[targetPlayerId := react r0 (GameNetwork.playerId network) reactionType]>
          (reactions prev) in
      with_players
        (with_reactions prev newReactions)
        (map (fun p =>
                if bool_decide (id p = targetPlayerId) then
                  let r := default (mkVoters [] []) (newReactions !! id p) in
                  with_thumbs p (length (votersUp r)) (length (votersDown r))
                else p)
             (players prev)))
  else
    (hs, GameNetwork.send network
           (mkMessage (submit_reaction targetPlayerId reactionType)
                      (GameNetwork.playerId network))).

(** [joinRoom], once the channel to the host is open: [player_joined]
    (sent by [GameNetwork.joinRoom]) and then [request_sync]. *)
Definition joinRoom_messages (network : GameNetwork.t) (playerName : string)
    : list GameMessage :=
  [ mkMessage (player_joined playerName) (GameNetwork.playerId network);
    mkMessage request_sync (GameNetwork.playerId network) ].

(** [createRoom]: the hook state once the host's peer is open. *)
Definition createRoom (network : GameNetwork.t) (roomCode hostName : string)
    : HookState :=
  let host :=
    {| id := GameNetwork.playerId network; name := hostName; isHost := true;
       sentence := None; quizScore := 0; drawingDataUrl := None;
       assignedSentence := None; thumbsUp := 0; thumbsDown := 0 |} in
  mkHook (Some (with_players (createInitialGameState roomCode) [host]))
         (Some host).

(** [setupConnection]: the ["close"] event. The entry leaves the table
    first; the only disconnection handler is the one [createRoom]
    registers, so there is one exactly on the host. *)
Definition onConnClose (n : GameNetwork.t) (hs : HookState)
    (conn : DataConnection) : GameNetwork.t * (HookState * list Sent) :=
  let n' := with_connections n (table_delete (GameNetwork.connections n) (peer conn)) in
  (n', if GameNetwork.isHost n then onDisconnection n' hs (peer conn)
       else (hs, [])).

(** ** [useGameState.ts]: the remaining host actions *)

Definition updateQuizTime (network : GameNetwork.t) (hs : HookState)
    (time : Z) : HookState * list Sent :=
  if negb (GameNetwork.isHost network) then (hs, []) else
  update_and_broadcast network hs (fun prev =>
    mkGameState (phase prev) (roomCode prev) (players prev)
      (currentQuestionIndex prev) (quizAnswers prev) time
      (drawingTimeRemaining prev) (currentSlideIndex prev)
      (slideTimeRemaining prev) (reactions prev)).

Definition updateDrawingTime (network : GameNetwork.t) (hs : HookState)
    (time : Z) : HookState * list Sent :=
  if negb (GameNetwork.isHost network) then (hs, []) else
  update_and_broadcast network hs (fun prev =>
    mkGameState (phase prev) (roomCode prev) (players prev)
      (currentQuestionIndex prev) (quizAnswers prev) (quizTimeRemaining prev)
      time (currentSlideIndex prev) (slideTimeRemaining prev) (reactions prev)).

(** The actions below read the state the callback closed over and install
    a new one with [setGameState(newState)]; with no state they return at
    once. *)
Definition set_and_broadcast (network : GameNetwork.t) (hs : HookState)
    (f : GameState → GameState) : HookState * list Sent :=
  if negb (GameNetwork.isHost network) then (hs, []) else
  match gameState hs with
  | None => (hs, [])
  | Some gameState =>
      let newState := f gameState in
      (mkHook (Some newState) (localPlayer hs),
       GameNetwork.broadcastGameState network newState)
  end.

Definition nextQuestion (random : nat → Q) (network : GameNetwork.t)
    (hs : HookState) : outcome (HookState * list Sent) :=
  if negb (GameNetwork.isHost network) then Returns (hs, []) else
  match gameState hs with
  | None => Returns (hs, [])
  | Some gameState =>
      let newIndex := currentQuestionIndex gameState + 1 in
      if (Z.of_nat (length QUIZ_QUESTIONS) <=? newIndex)%Z then
        startDrawingPhase random network hs
      else
        Returns
          (mkHook
             (Some (mkGameState (phase gameState) (roomCode gameState)
                      (players gameState) newIndex (quizAnswers gameState)
                      (quizTimeRemaining gameState)
                      (drawingTimeRemaining gameState)
                      (currentSlideIndex gameState)
                      (slideTimeRemaining gameState) (reactions gameState)))
             (localPlayer hs),
           GameNetwork.broadcastGameState network
             (mkGameState (phase gameState) (roomCode gameState)
                (players gameState) newIndex (quizAnswers gameState)
                (quizTimeRemaining gameState) (drawingTimeRemaining gameState)
                (currentSlideIndex gameState) (slideTimeRemaining gameState)
                (reactions gameState)))
  end.

Definition startSlideshow (network : GameNetwork.t) (hs : HookState)
    : HookState * list Sent :=
  set_and_broadcast network hs (fun gameState =>
    mkGameState slideshow (roomCode gameState) (players gameState)
      (currentQuestionIndex gameState) (quizAnswers gameState)
      (quizTimeRemaining gameState) (drawingTimeRemaining gameState)
      0 5 (reactions gameState)).

Definition updateSlideTime (network : GameNetwork.t) (hs : HookState)
    (time : Z) : HookState * list Sent :=
  set_and_broadcast network hs (fun gameState =>
    mkGameState (phase gameState) (roomCode gameState) (players gameState)
      (currentQuestionIndex gameState) (quizAnswers gameState)
      (quizTimeRemaining gameState) (drawingTimeRemaining gameState)
      (currentSlideIndex gameState) time (reactions gameState)).

(** [gameState.players.filter((p) => !p.isHost && p.drawingDataUrl)], of
    [nextSlide], of the slideshow and of the leaderboard. *)
Definition playersWithDrawings (gameState : GameState) : list Player :=
  List.filter (fun p => negb (isHost p) && truthy (drawingDataUrl p))
              (players gameState).

Definition nextSlide (network : GameNetwork.t) (hs : HookState)
    : HookState * list Sent :=
  set_and_broadcast network hs (fun gameState =>
    let newIndex := currentSlideIndex gameState + 1 in
    if (Z.of_nat (length (playersWithDrawings gameState)) <=? newIndex)%Z then
      with_phase gameState leaderboard
    else
      mkGameState (phase gameState) (roomCode gameState) (players gameState)
        (currentQuestionIndex gameState) (quizAnswers gameState)
        (quizTimeRemaining gameState) (drawingTimeRemaining gameState)
        newIndex 5 (reactions gameState)).

Definition resetGame (network : GameNetwork.t) (hs : HookState)
    : HookState * list Sent :=
  set_and_broadcast network hs (fun gameState =>
    mkGameState lobby (roomCode gameState)
      (map (fun p => mkPlayer (id p) (name p) (isHost p) None 0 None None 0 0)
           (players gameState))
      0 ∅ QUIZ_DURATION DRAWING_DURATION 0 5 ∅).

(** ** [Slideshow.tsx] and [Leaderboard.tsx] *)

(** [playersWithDrawings[gameState.currentSlideIndex]] *)
Definition currentPlayer (gameState : GameState) : option Player :=
  if (currentSlideIndex gameState <? 0)%Z then None
  else playersWithDrawings gameState !! Z.to_nat (currentSlideIndex gameState).





(** ** The host's timers in [QuizRound] and [DrawingCanvas] *)

(** One round of the quiz timer effect of [QuizRound] on the host: with
    the time used up it calls [onStartDrawing] (wired to
    [startDrawingPhase]); otherwise the interval it arms calls
    [onUpdateQuizTime(gameState.quizTimeRemaining - 1)]. *)
Definition quizTimer (random : nat → Q) (network : GameNetwork.t)
    (hs : HookState) : outcome (HookState * list Sent) :=
  if negb (GameNetwork.isHost network) then Returns (hs, []) else
  match gameState hs with
  | None => Returns (hs, [])
  | Some gameState =>
      if (quizTimeRemaining gameState <=? 0)%Z
      then startDrawingPhase random network hs
      else Returns (updateQuizTime network hs (quizTimeRemaining gameState - 1))
  end.

(** One round of the timer effect of [DrawingCanvas] on the host: with the
    time used up it does nothing; otherwise the interval calls
    [onUpdateTime(gameState.drawingTimeRemaining - 1)]. *)
Definition drawingTimer (network : GameNetwork.t) (hs : HookState)
    : HookState * list Sent :=
  if negb (GameNetwork.isHost network) then (hs, []) else
  match gameState hs with
  | None => (hs, [])
  | Some gameState =>
      if (drawingTimeRemaining gameState <=? 0)%Z then (hs, [])
      else updateDrawingTime network hs (drawingTimeRemaining gameState - 1)
  end.

(** * Specification-level notions *)

(** The host's canonical state after one message ... *)
Definition reduce (network : GameNetwork.t) (message : GameMessage)
    (st : GameState) : GameState :=
  fst (hostReducer network message st).

(** ... and after a run of messages, each handled by the reducer in
    turn. *)
Definition reduce_all (network : GameNetwork.t) (messages : list GameMessage)
    (st : GameState) : GameState :=
  foldl (fun s m => reduce network m s) st messages.

(** What a broadcast of the snapshot [st] amounts to: one
    [game_state_update] per open connection of the host, in the order of
    the connection table, and nothing on a closed one. *)
Definition snapshot_to_open (network : GameNetwork.t) (st : GameState)
    : list Sent :=
  map (fun kc : string * DataConnection =>
         (peer (snd kc),
          mkMessage (game_state_update st) (GameNetwork.playerId network)))
      (List.filter (fun kc : string * DataConnection => open (snd kc))
                   (GameNetwork.connections network)).

(** The intents whose [case] writes to the state. *)
Definition mutating (b : MessageBody) : bool :=
  match b with
  | player_joined _ | submit_sentence _ | submit_quiz_answer _ _
  | submit_drawing _ | submit_reaction _ _ => true
  | _ => false
  end.

(** The hook state after a run of messages through [handleMessage]. *)
Definition handle_all (network : GameNetwork.t) (messages : list GameMessage)
    (hs : HookState) : HookState :=
  foldl (fun h m => fst (handleMessage network h m)) hs messages.


(** The answer the state holds for player [p] at index [i]: absent when
    the player has no entry, when [i] is past the end of the array, or at
    a hole. *)
Definition recorded (st : GameState) (p : string) (i : nat) : option Z :=
  mjoin (default [] (quizAnswers st !! p) !! i).

(** The answer of [p] at index [i] that a run of messages leaves, given
    the one held [before]: the payload of the last [submit_quiz_answer]
    from [p] for index [i], if there is one. *)
Fixpoint latest_answer (before : option Z) (messages : list GameMessage)
    (p : string) (i : nat) : option Z :=
  match messages with
  | [] => before
  | m :: rest =>
      match body m with
      | submit_quiz_answer q a =>
          if bool_decide (senderId m = p ∧ q = i)
          then latest_answer (Some a) rest p i
          else latest_answer before rest p i
      | _ => latest_answer before rest p i
      end
  end.

(** Is [answer], given for question [idx], the correct one? *)
Definition hit (answer : option Z) (idx : nat) : bool :=
  match answer with
  | Some a => bool_decide (Some a = correctIndex_at idx)
  | None => false
  end.

(** The number of questions whose answer, as given by [answers], is the
    question's [correctIndex]. *)
Definition correct_count (answers : nat → option Z) : nat :=
  length (List.filter (fun i => hit (answers i) i)
                      (seq 0 (length QUIZ_QUESTIONS))).

(** The invariant on the voter lists: per target, neither list repeats a
    voter and no voter is in both. *)
Definition exclusive_votes (st : GameState) : Prop :=
  ∀ target r, reactions st !! target = Some r →
    NoDup (votersUp r) ∧ NoDup (votersDown r)
    ∧ ∀ voter, ¬ (voter ∈ votersUp r ∧ voter ∈ votersDown r).



(** The [players.map] of the [submit_reaction] case, once the entry of the
    target is known to be [r]. *)
Definition set_counts (target : string) (r : Voters) (ps : list Player)
    : list Player :=
  map (fun p => if bool_decide (id p = target)
                then with_thumbs p (length (votersUp r)) (length (votersDown r))
                else p) ps.


(** [result] leaves no author at the author's own index of [items]. *)
Definition no_fixed_point (items result : list Item.t) : Prop :=
  ∀ i a b, items !! i = Some a → result !! i = Some b →
           Item.authorId b ≠ Item.authorId a.

(** What the drawing phase shows of a player. *)
Definition drawing_view (p : Player)
    : string * option string * option string :=
  (id p, sentence p, assignedSentence p).

(** * Sample rooms, to run the handlers on concrete inputs *)

Definition host_id : string := "drawg-host-ABCD".
Definition alice : string := "drawg-player-alice".
Definition bob : string := "drawg-player-bob".
Definition carol : string := "drawg-player-carol".

Definition hostPlayer : Player :=
  {| id := host_id; name := "Host"; isHost := true;
     sentence := None; quizScore := 0; drawingDataUrl := None;
     assignedSentence := None; thumbsUp := 0; thumbsDown := 0 |}.

(** The host's table after Alice and Bob connected and Bob's channel
    stopped being open. *)
Definition sample_network : GameNetwork.t :=
  GameNetwork.mk [(alice, mkConn alice true); (bob, mkConn bob false)]
                 None host_id true.

(** [createRoom]: the initial state with the host as only player. *)
Definition room_created : GameState :=
  with_players (createInitialGameState "ABCD") [hostPlayer].

(** Alice and Bob joined. *)
Definition sample_room : GameState :=
  reduce_all sample_network
    [mkMessage (player_joined "Alice") alice;
     mkMessage (player_joined "Bob") bob]
    room_created.

(** Alice submitted a drawing. *)
Definition alice_drew : GameState :=
  reduce sample_network (mkMessage (submit_drawing "data:image/png;first") alice)
         sample_room.

(** Alice answered a question and voted before her connection closed. *)
Definition alice_played : GameState :=
  reduce_all sample_network
    [mkMessage (submit_quiz_answer 0 2) alice;
     mkMessage (submit_reaction bob thumbsUpR) alice]
    sample_room.

Definition zed : string := "drawg-player-zed".

(** The host's table with Zed, Alice and Bob connected. *)
Definition full_network : GameNetwork.t :=
  GameNetwork.mk
    [(zed, mkConn zed true); (alice, mkConn alice true); (bob, mkConn bob true)]
    None host_id true.

(** Zed, Alice and Bob join, write "Z", "A" and "B", and the host starts the
    quiz. *)
Definition quiz_started : HookState :=
  let hs0 := mkHook (Some room_created) (Some hostPlayer) in
  let hs1 := handle_all full_network
               [mkMessage (player_joined "Zed") zed;
                mkMessage (player_joined "Alice") alice;
                mkMessage (player_joined "Bob") bob] hs0 in
  let hs2 := fst (startSentenceSubmission full_network hs1) in
  let hs3 := handle_all full_network
               [mkMessage (submit_sentence "Z") zed;
                mkMessage (submit_sentence "A") alice;
                mkMessage (submit_sentence "B") bob] hs2 in
  fst (startQuiz full_network hs3).

(** During the quiz the host, who moderates the sentences, empties Zed's. *)
Definition zed_emptied : HookState :=
  fst (updatePlayerSentence full_network quiz_started zed "").

(** ... and then Alice's and Bob's too. *)
Definition all_emptied : HookState :=
  let hs := fst (updatePlayerSentence full_network zed_emptied alice "") in
  fst (updatePlayerSentence full_network hs bob "").

(** Three authored sentences, and a random source that always returns 0. *)
Definition three_sentences : list Item.t :=
  [Item.mk "A" alice; Item.mk "B" bob; Item.mk "C" carol].

Definition always_zero : nat → Q := fun _ => 0%Q.

(** ** Notions for the rest of the engine *)

(** All tools, in the order in which scores unlock them. *)
Definition ALL_TOOLS : list DrawingTool.t := BASE_TOOLS ++ UNLOCKABLE_TOOLS.

(** The characters a room code must not contain. *)
Definition ambiguous : string := "0O1I".

(** The characters of a string. *)
Definition characters (s : string) : list Ascii.ascii :=
  String.list_ascii_of_string s.

(** The connection table as [setupConnection] keeps it: one entry per
    peer, filed under the peer's id. *)
Definition table_wf (conns : list (string * DataConnection)) : Prop :=
  NoDup (map fst conns) ∧ ∀ k c, (k, c) ∈ conns → k = peer c.

(** The messages of [sent] that went to peer [k], in order. *)
Definition sent_to (k : string) (sent : list Sent) : list GameMessage :=
  map snd (List.filter (fun m : Sent => bool_decide (fst m = k)) sent).

(** The snapshot message of the host. *)
Definition snapshot (network : GameNetwork.t) (st : GameState) : GameMessage :=
  mkMessage (game_state_update st) (GameNetwork.playerId network).

(** The identity of a player: the fields that no message changes. *)
Definition identity (p : Player) : string * string * bool :=
  (id p, name p, isHost p).

(** The identities that the [player_joined] messages of a run add, in the
    order of the messages. *)
Fixpoint joiners (messages : list GameMessage)
    : list (string * string * bool) :=
  match messages with
  | [] => []
  | m :: rest =>
      match body m with
      | player_joined playerName =>
          (senderId m, playerName, false) :: joiners rest
      | _ => joiners rest
      end
  end.

(** The voter lists recorded for a target: [reactions[target] || {thumbsUp:
    [], thumbsDown: []}]. *)
Definition votes (st : GameState) (target : string) : Voters :=
  default (mkVoters [] []) (reactions st !! target).

(** The derived fields of every player agree with the records: the score
    with the recorded answers, the two counts with the voter lists. *)
Definition derived_consistent (st : GameState) : Prop :=
  ∀ p, p ∈ players st →
    quizScore p = correct_count (recorded st (id p))
    ∧ thumbsUp p = length (votersUp (votes st (id p)))
    ∧ thumbsDown p = length (votersDown (votes st (id p))).

(** A [player_joined] message is fresh when nothing that counts is
    recorded under the sender's id yet: the new player starts at 0. *)
Definition join_fresh (st : GameState) (m : GameMessage) : Prop :=
  match body m with
  | player_joined _ =>
      correct_count (recorded st (senderId m)) = 0%nat
      ∧ votersUp (votes st (senderId m)) = []
      ∧ votersDown (votes st (senderId m)) = []
  | _ => True
  end.

(** Every join of a run is fresh in the state it arrives in. *)
Fixpoint joins_fresh (network : GameNetwork.t) (messages : list GameMessage)
    (st : GameState) : Prop :=
  match messages with
  | [] => True
  | m :: rest => join_fresh st m ∧ joins_fresh network rest (reduce network m st)
  end.

(** A run of messages through [handleMessage], with everything sent on
    the way, in order. *)
Definition handle_all_sent (network : GameNetwork.t)
    (messages : list GameMessage) (hs : HookState) : HookState * list Sent :=
  foldl (fun acc m =>
           let '(h, sent) := handleMessage network (fst acc) m in
           (h, snd acc ++ sent))
        (hs, []) messages.

(** The four intents of a player, and the hook function of each. *)
Inductive Intent :=
  | WriteSentence (sentence : string)
  | AnswerQuiz (questionIndex : nat) (answerIndex : Z)
  | SendDrawing (drawingDataUrl : string)
  | React (targetPlayerId : string) (reactionType : ReactionType).

Definition perform (network : GameNetwork.t) (hs : HookState) (i : Intent)
    : HookState * list Sent :=
  match i with
  | WriteSentence s => submitSentence network hs s
  | AnswerQuiz q a => submitQuizAnswer network hs q a
  | SendDrawing url => submitDrawing network hs url
  | React t ty => submitReaction network hs t ty
  end.

(** The message an intent travels as. *)
Definition intent_message (network : GameNetwork.t) (i : Intent) : GameMessage :=
  mkMessage
    match i with
    | WriteSentence s => submit_sentence s
    | AnswerQuiz q a => submit_quiz_answer q a
    | SendDrawing url => submit_drawing url
    | React t ty => submit_reaction t ty
    end
    (GameNetwork.playerId network).

(** The player's own entry in a player list, as the replica looks it up. *)
Definition own_entry (network : GameNetwork.t) (ps : list Player)
    : option Player :=
  find (fun p => bool_decide (id p = GameNetwork.playerId network)) ps.

(** Alice's side of the star: no table of her own, a channel to the host. *)
Definition alice_network : GameNetwork.t :=
  GameNetwork.mk [] (Some (mkConn "drawg-host-ABCD" true)) "drawg-player-alice"
                 false.

(** The hook state after [n] calls of [nextSlide]. *)
Definition after_slides (network : GameNetwork.t) (n : nat) (hs : HookState)
    : HookState :=
  Nat.iter n (fun h => fst (nextSlide network h)) hs.

(** A player as [resetGame] leaves it. *)
Definition cleared (p : Player) : Player :=
  mkPlayer (id p) (name p) (isHost p) None 0 None None 0 0.

(** The non-host players, in join order, and the item of an author. *)
Definition participants_of (st : GameState) : list Player :=
  List.filter (fun p => negb (isHost p)) (players st).

Definition item_of (p : Player) : Item.t :=
  Item.mk (default "" (sentence p)) (id p).


(** The hook state after [n] rounds of a step that may throw. *)
Fixpoint rounds (step : HookState → outcome (HookState * list Sent))
    (n : nat) (hs : HookState) : outcome HookState :=
  match n with
  | O => Returns hs
  | S n' =>
      match rounds step n' hs with
      | Returns h =>
          match step h with
          | Returns r => Returns (fst r)
          | Throws e => Throws e
          end
      | Throws e => Throws e
      end
  end.

(** A state with the quiz clock and the question index set. *)
Definition quiz_at (st : GameState) (index time : Z) : GameState :=
  mkGameState quiz (roomCode st) (players st) index (quizAnswers st) time
    (drawingTimeRemaining st) (currentSlideIndex st) (slideTimeRemaining st)
    (reactions st).

(** A state with the drawing clock set. *)
Definition drawing_at (st : GameState) (time : Z) : GameState :=
  mkGameState (phase st) (roomCode st) (players st) (currentQuestionIndex st)
    (quizAnswers st) (quizTimeRemaining st) time (currentSlideIndex st)
    (slideTimeRemaining st) (reactions st).

(** * Properties *)

(** ** Broadcast and resync *)

Lemma broadcast_is_snapshot_to_open network st :
  GameNetwork.isHost network = true →
  GameNetwork.broadcastGameState network st = snapshot_to_open network st.
Proof.
  intros Hhost.
  unfold GameNetwork.broadcastGameState, GameNetwork.send, snapshot_to_open.
  rewrite Hhost.
  induction (GameNetwork.connections network) as [|[k c] cs IH]; simpl; [done|].
  destruct (open c); simpl; by rewrite IH.
Qed.

Lemma hostReducer_mutating_sent network m st :
  mutating (body m) = true →
  snd (hostReducer network m st)
  = GameNetwork.broadcastGameState network (reduce network m st).
Proof.
  unfold reduce, hostReducer. by destruct (body m).
Qed.

(** A send on a connection whose [open] flag is off never happens. *)
Lemma snapshot_to_open_only_open network st to msg :
  (to, msg) ∈ snapshot_to_open network st →
  ∃ k c, (k, c) ∈ GameNetwork.connections network ∧ open c = true
         ∧ to = peer c
         ∧ msg = mkMessage (game_state_update st) (GameNetwork.playerId network).
Proof.
  unfold snapshot_to_open. intros Hin.
  apply list_elem_of_In, in_map_iff in Hin as [[k c] [Heq Hin]].
  apply filter_In in Hin as [Hin Hopen]. simpl in *.
  exists k, c. rewrite list_elem_of_In. by inversion Heq.
Qed.

(** C5. On the host, handling one [player_joined], [submit_sentence],
    [submit_quiz_answer], [submit_drawing] or [submit_reaction] message
    installs the reducer's new state and sends exactly one
    [game_state_update] carrying that complete new state on every open
    connection, in table order, and nothing on a closed connection. *)
Theorem broadcast_after_mutation network st lp m :
  GameNetwork.isHost network = true →
  mutating (body m) = true →
  let st' := reduce network m st in
  handleMessage network (mkHook (Some st) lp) m
  = (mkHook (Some st') lp, snapshot_to_open network st')
  ∧ length (snapshot_to_open network st')
    = length (List.filter (fun kc : string * DataConnection => open (snd kc))
                          (GameNetwork.connections network))
  ∧ ∀ to msg, (to, msg) ∈ snapshot_to_open network st' →
      msg = mkMessage (game_state_update st') (GameNetwork.playerId network)
      ∧ ∃ k c, (k, c) ∈ GameNetwork.connections network
               ∧ open c = true ∧ to = peer c.
Proof.
  intros Hhost Hmut st'. split_and!.
  - unfold handleMessage. rewrite Hhost. simpl.
    pose proof (hostReducer_mutating_sent network m st Hmut) as Hsent.
    destruct (hostReducer network m st) as [s out] eqn:E.
    unfold st', reduce. rewrite E. simpl in *. subst out.
    rewrite broadcast_is_snapshot_to_open by done.
    unfold reduce. by rewrite E.
  - unfold snapshot_to_open. by rewrite length_map.
  - intros to msg Hin.
    destruct (snapshot_to_open_only_open _ _ _ _ Hin) as (k & c & ? & ? & ? & ?).
    split; [done|]. by exists k, c.
Qed.

Lemma broadcast_after_mutation_witness :
  let m := mkMessage (submit_sentence "A cat on the moon") alice in
  let st' := reduce sample_network m sample_room in
  handleMessage sample_network (mkHook (Some sample_room) None) m
  = (mkHook (Some st') None,
     [(alice, mkMessage (game_state_update st') host_id)]).
Proof.
  intros m st'.
  exact (proj1 (broadcast_after_mutation sample_network sample_room None m
                  eq_refl eq_refl)).
Defined.




(** ** Joining, drawing, leaving *)

(** C10. In every phase and whatever the players already are, a
    [player_joined] message appends one player to the end of [players]:
    id the sender's, the name of the payload, not host, scores and counts 0,
    no sentence, drawing or assigned sentence. Nothing else of the state
    changes, and a second [player_joined] from the same sender appends a
    second entry with the same id. *)
Theorem player_joined_appends network st sender playerName :
  let m := mkMessage (player_joined playerName) sender in
  let joined :=
    {| id := sender; name := playerName; isHost := false;
       sentence := None; quizScore := 0%nat; drawingDataUrl := None;
       assignedSentence := None; thumbsUp := 0%nat; thumbsDown := 0%nat |} in
  reduce network m st = with_players st (players st ++ [joined])
  ∧ phase (reduce network m st) = phase st
  ∧ players (reduce_all network [m; m] st) = players st ++ [joined; joined].
Proof.
  intros m joined. split_and!; try reflexivity.
  unfold reduce_all. simpl. unfold reduce. simpl.
  by rewrite <- app_assoc.
Qed.




Lemma filter_sublist {A} (f : A → bool) (l : list A) :
  sublist (List.filter f l) l.
Proof.
  induction l as [|x l IH]; simpl; [constructor|].
  destruct (f x); by constructor.
Qed.

(** C9. When the transport reports that [playerId] is gone, the host's new
    [players] is the old one without the entries of that id: a subsequence
    of the old list (the others keep their order), holding exactly the
    players with another id. Every other field is the old one, the
    departed player's [quizAnswers] entry and the voter lists of
    [reactions] included, and the new snapshot is broadcast to the open
    connections. *)
Theorem disconnection_removes_player network st lp playerId :
  GameNetwork.isHost network = true →
  ∃ st',
    onDisconnection network (mkHook (Some st) lp) playerId
    = (mkHook (Some st') lp, snapshot_to_open network st')
    ∧ sublist (players st') (players st)
    ∧ (∀ p, p ∈ players st' ↔ p ∈ players st ∧ id p ≠ playerId)
    ∧ st' = with_players st (players st')
    ∧ quizAnswers st' = quizAnswers st
    ∧ reactions st' = reactions st
    ∧ phase st' = phase st.
Proof.
  intros Hhost. eexists. split_and!.
  - unfold onDisconnection. simpl.
    by rewrite broadcast_is_snapshot_to_open.
  - simpl. apply filter_sublist.
  - intros p. simpl. rewrite !list_elem_of_In, filter_In.
    rewrite negb_true_iff, bool_decide_eq_false. done.
  - reflexivity.
  - reflexivity.
  - reflexivity.
  - reflexivity.
Qed.

Lemma disconnection_removes_player_witness :
  ∃ st',
    onDisconnection sample_network (mkHook (Some alice_played) None) alice
    = (mkHook (Some st') None, snapshot_to_open sample_network st')
    ∧ map id (players st') = [host_id; bob]
    ∧ quizAnswers st' !! alice = Some [Some 2]
    ∧ reactions st' !! bob = Some (mkVoters [alice] []).
Proof.
  destruct (disconnection_removes_player sample_network alice_played None alice
              eq_refl) as (st' & Hrun & _ & _ & Hst' & Hqa & Hre & _).
  exists st'. injection Hrun as Hplayers.
  split_and!.
  - unfold onDisconnection. simpl. by rewrite <- Hplayers.
  - by rewrite <- Hplayers.
  - by rewrite Hqa.
  - by rewrite Hre.
Defined.

(** ** Quiz answers and the score *)

Section ArrayFacts.
Context {A : Type}.
Implicit Types (a : list (option A)) (i j : nat) (x : A).

Lemma array_set_lookup a i x j :
  mjoin (array_set a i x !! j) = if bool_decide (i = j) then Some x else mjoin (a !! j).
Proof.
  revert a j. induction i as [|i IH]; intros [|y a] [|j]; simpl; try done.
  all: try rewrite IH.
  all: repeat case_bool_decide; try done; try lia.
Qed.

Lemma array_set_idemp a i x :
  array_set (array_set a i x) i x = array_set a i x.
Proof.
  revert a. induction i as [|i IH]; intros [|y a]; simpl; try done;
    by rewrite IH.
Qed.
End ArrayFacts.

Lemma filter_map_length {A B} (f : B → bool) (g : A → B) (l : list A) :
  length (List.filter f (map g l)) = length (List.filter (fun x => f (g x)) l).
Proof.
  induction l as [|x l IH]; simpl; [done|].
  destruct (f (g x)); simpl; by rewrite IH.
Qed.

Lemma filter_all_false {A} (f : A → bool) (l : list A) :
  (∀ x, In x l → f x = false) → List.filter f l = [].
Proof.
  induction l as [|x l IH]; simpl; intros H; [done|].
  rewrite (H x) by auto. apply IH. auto.
Qed.

Lemma count_seq_cut (f : nat → bool) (k n : nat) :
  (k ≤ n)%nat → (∀ j, (k ≤ j)%nat → f j = false) →
  length (List.filter f (seq 0 n)) = length (List.filter f (seq 0 k)).
Proof.
  intros Hle Hf.
  replace (seq 0 n) with (seq 0 (k + (n - k))) by (f_equal; lia).
  rewrite seq_app, List.filter_app, length_app.
  rewrite (filter_all_false f (seq (0 + k) _)); [simpl; lia|].
  intros j Hj. apply in_seq in Hj. apply Hf. lia.
Qed.

Lemma count_seq_S (f : nat → bool) (n : nat) :
  length (List.filter f (seq 0 (S n)))
  = ((if f 0%nat then 1 else 0)
     + length (List.filter (fun j => f (S j)) (seq 0 n)))%nat.
Proof.
  rewrite <- cons_seq, <- seq_shift. cbn [List.filter].
  rewrite <- filter_map_length. by destruct (f 0%nat).
Qed.

Lemma forEach_score_hits (answers : list (option Z)) (idx score : nat) :
  forEach_score answers idx score
  = (score + length (List.filter (fun j => hit (mjoin (answers !! j)) (idx + j))
                                 (seq 0 (length answers))))%nat.
Proof.
  revert idx score. induction answers as [|x answers IH]; intros idx score.
  - simpl. lia.
  - cbn [length]. rewrite count_seq_S.
    rewrite (filter_ext _ (fun j => hit (mjoin (answers !! j)) (S idx + j)))
      by (intros j; simpl; f_equal; lia).
    replace (idx + 0)%nat with idx by lia.
    destruct x as [a|]; cbn [forEach_score]; rewrite IH.
    + change (hit (mjoin ((Some a :: answers) !! 0%nat)) idx)
        with (bool_decide (Some a = correctIndex_at idx)).
      destruct (bool_decide (Some a = correctIndex_at idx)); simpl;
        [rewrite Nat.add_succ_r|]; reflexivity.
    + change (hit (mjoin ((None :: answers) !! 0%nat)) idx) with false. reflexivity.
Qed.

(** The loop over the array counts exactly the questions answered
    correctly; holes and indices past the last question add nothing. *)
Lemma forEach_score_correct_count (answers : list (option Z)) :
  forEach_score answers 0 0 = correct_count (fun i => mjoin (answers !! i)).
Proof.
  rewrite forEach_score_hits. unfold correct_count. simpl plus.
  set (f := fun j => hit (mjoin (answers !! j)) j).
  assert (Hf : ∀ j, (length answers `min` length QUIZ_QUESTIONS ≤ j)%nat →
                    f j = false).
  { intros j Hj. unfold f, hit.
    destruct (decide (length answers ≤ j)%nat) as [Hl|Hl].
    - by rewrite (lookup_ge_None_2 answers j Hl).
    - destruct (mjoin (answers !! j)) as [a|]; [|done].
      unfold correctIndex_at.
      rewrite (lookup_ge_None_2 QUIZ_QUESTIONS j) by lia. done. }
  rewrite (count_seq_cut f _ (length answers) (Nat.le_min_l _ _) Hf).
  by rewrite (count_seq_cut f _ (length QUIZ_QUESTIONS) (Nat.le_min_r _ _) Hf).
Qed.

Lemma reduce_all_snoc network messages m st :
  reduce_all network (messages ++ [m]) st
  = reduce network m (reduce_all network messages st).
Proof. unfold reduce_all. by rewrite foldl_app. Qed.

(** One message changes the recorded answers the way [latest_answer]
    says. *)
Lemma recorded_reduce network m st p i :
  recorded (reduce network m st) p i = latest_answer (recorded st p i) [m] p i.
Proof.
  unfold reduce, hostReducer, recorded. simpl.
  destruct (body m) as [| |q a| | | | |]; simpl; try done.
  destruct (decide (senderId m = p)) as [->|Hne].
  - rewrite lookup_insert_eq. simpl. rewrite array_set_lookup.
    destruct (decide (q = i)) as [->|Hq].
    + rewrite !bool_decide_eq_true_2; done.
    + rewrite !bool_decide_eq_false_2; [done|by intros [_ ?]|done].
  - rewrite lookup_insert_ne by done.
    rewrite bool_decide_eq_false_2; [done|]. by intros [? _].
Qed.

Lemma latest_answer_app before ms1 ms2 p i :
  latest_answer before (ms1 ++ ms2) p i
  = latest_answer (latest_answer before ms1 p i) ms2 p i.
Proof.
  revert before. induction ms1 as [|m ms1 IH]; intros before; simpl; [done|].
  destruct (body m); try apply IH. case_bool_decide; apply IH.
Qed.

Lemma recorded_reduce_all network messages st p i :
  recorded (reduce_all network messages st) p i
  = latest_answer (recorded st p i) messages p i.
Proof.
  induction messages as [|m messages IH] using rev_ind; [done|].
  by rewrite reduce_all_snoc, recorded_reduce, IH, latest_answer_app.
Qed.

Lemma correct_count_ext (f g : nat → option Z) :
  (∀ i, f i = g i) → correct_count f = correct_count g.
Proof.
  intros Hfg. unfold correct_count. f_equal.
  apply filter_ext. intros i. by rewrite Hfg.
Qed.

(** After one [submit_quiz_answer], the sender's score is the number of
    correct answers among those now recorded for the sender. *)
Lemma quiz_step_score network st sender q a p :
  let st' := reduce network (mkMessage (submit_quiz_answer q a) sender) st in
  p ∈ players st' → id p = sender →
  quizScore p = correct_count (recorded st' sender).
Proof.
  intros st' Hin Hid.
  assert (Hrec : ∀ i, recorded st' sender i
            = mjoin (array_set (default [] (quizAnswers st !! sender)) q a !! i)).
  { intros i. unfold st', reduce, recorded. simpl. by rewrite lookup_insert_eq. }
  rewrite (correct_count_ext _ _ Hrec), <- forEach_score_correct_count.
  unfold st', reduce in Hin. simpl in Hin.
  apply list_elem_of_In, in_map_iff in Hin as (p0 & Hp & _).
  case_bool_decide; subst p; simpl in *; [done|congruence].
Qed.

Lemma map_id_on {A} (f : A → A) (l : list A) :
  (∀ x, In x l → f x = x) → map f l = l.
Proof.
  induction l as [|x l IH]; simpl; intros H; [done|].
  rewrite (H x) by auto. f_equal. apply IH. auto.
Qed.

(** Replaying a [submit_quiz_answer] that was just handled changes
    nothing at all in the state. *)
Lemma quiz_replay network st sender q a :
  let m := mkMessage (submit_quiz_answer q a) sender in
  reduce network m (reduce network m st) = reduce network m st.
Proof.
  intros m. unfold reduce at 1. unfold hostReducer.
  cbn [body m senderId fst GameNetwork.broadcastGameState].
  set (st1 := reduce network m st).
  assert (Hqa : quizAnswers st1 !! sender
            = Some (array_set (default [] (quizAnswers st !! sender)) q a)).
  { unfold st1, reduce. simpl. by rewrite lookup_insert_eq. }
  rewrite Hqa. simpl default. rewrite array_set_idemp.
  rewrite (insert_id _ _ _ Hqa).
  rewrite map_id_on.
  - by destruct st1.
  - intros p Hp. case_bool_decide as Hid; [|done].
    apply list_elem_of_In in Hp.
    pose proof (quiz_step_score network st sender q a p Hp Hid) as Hscore.
    fold m st1 in Hscore.
    assert (Hrec : ∀ i, recorded st1 sender i
              = mjoin (array_set (default [] (quizAnswers st !! sender)) q a !! i)).
    { intros i. unfold recorded. by rewrite Hqa. }
    rewrite (correct_count_ext _ _ Hrec), <- forEach_score_correct_count in Hscore.
    rewrite <- Hscore. by destruct p.
Qed.

(** C1. Take any run of messages handled by the host's reducer that ends
    with a [submit_quiz_answer] from [sender] (earlier ones may repeat an
    index, come in any order of indices and leave holes). Afterwards every
    player entry of [sender] has as [quizScore] the number of questions [i]
    at which the latest answer recorded for [sender] equals the
    [correctIndex] of question [i], and handling the same message once
    more gives back the same state, score included. *)
Theorem quizScore_counts_latest network st messages sender q a :
  let m := mkMessage (submit_quiz_answer q a) sender in
  let st' := reduce_all network (messages ++ [m]) st in
  (∀ p, p ∈ players st' → id p = sender →
        quizScore p
        = correct_count
            (fun i => latest_answer (recorded st sender i) (messages ++ [m])
                                    sender i))
  ∧ recorded st' sender q = Some a
  ∧ reduce network m st' = st'
  ∧ (∀ p, p ∈ players (reduce network m st') → id p = sender →
          quizScore p
          = correct_count
              (fun i => latest_answer (recorded st sender i) (messages ++ [m])
                                      sender i)).
Proof.
  intros m st'.
  assert (Hscore : ∀ p, p ∈ players st' → id p = sender →
            quizScore p
            = correct_count
                (fun i => latest_answer (recorded st sender i) (messages ++ [m])
                                        sender i)).
  { intros p Hin Hid. unfold st' in *. rewrite reduce_all_snoc in Hin.
    rewrite (quiz_step_score _ _ _ _ _ _ Hin Hid).
    apply correct_count_ext. intros i.
    by rewrite <- reduce_all_snoc, recorded_reduce_all. }
  assert (Hreplay : reduce network m st' = st').
  { unfold st'. rewrite reduce_all_snoc. apply quiz_replay. }
  split_and!; [done| |done|by rewrite Hreplay].
  unfold st'. rewrite reduce_all_snoc, recorded_reduce. simpl.
  by rewrite bool_decide_eq_true_2.
Qed.

(** Scenario 2 of the specification: the correct answer to question 0,
    sent twice, scores one point. *)
Example duplicate_answer_scores_once :
  map quizScore
      (players (reduce_all sample_network
                  [mkMessage (submit_quiz_answer 0 2) alice;
                   mkMessage (submit_quiz_answer 0 2) alice]
                  sample_room))
  = [0; 1; 0]%nat.
Proof. reflexivity. Qed.

(** Answers out of order: question 3 first leaves holes at 0..2, and a
    later wrong answer to question 3 takes the point back. *)
Example out_of_order_answers :
  let st := reduce_all sample_network
              [mkMessage (submit_quiz_answer 3 2) bob;
               mkMessage (submit_quiz_answer 1 1) bob;
               mkMessage (submit_quiz_answer 3 0) bob]
              sample_room in
  quizAnswers st !! bob = Some [None; Some 1; None; Some 0]
  ∧ map quizScore (players st) = [0; 0; 1]%nat.
Proof. split; reflexivity. Qed.

(** ** Reactions *)

Section Without.
Implicit Types (v w : string) (l : list string).






End Without.




(** The [submit_reaction] case in closed form. *)
Lemma reduce_reaction network st voter target ty :
  let r' := react (default (mkVoters [] []) (reactions st !! target)) voter ty in
  reduce network (mkMessage (submit_reaction target ty) voter) st
  = with_players (with_reactions st (<[target := r']> (reactions st)))
                 (set_counts target r' (players st)).
Proof.
  intros r'. unfold reduce, hostReducer, set_counts. simpl. f_equal.
  apply map_ext. intros p. case_bool_decide as Hid; [|done].
  rewrite Hid, lookup_insert_eq. done.
Qed.





(** A new room, and a room after [resetGame], has no voters at all. *)
Lemma initial_votes_exclusive st :
  reactions st = ∅ → exclusive_votes st.
Proof. intros Hempty t r Hr. by rewrite Hempty, lookup_empty in Hr. Qed.



(** ** The derangement *)

(** A value of [Math.random()] is below 1, so the index drawn for position
    [i] is at most [i]: the shuffle exchanges elements of the array. *)
Lemma random_index_le (r : Q) (i : nat) :
  (r < 1)%Q → (random_index r i ≤ i)%nat.
Proof.
  intros Hlt. unfold random_index.
  set (n := Z.of_nat (i + 1)).
  assert (Hn : (0 < inject_Z n)%Q).
  { change 0%Q with (inject_Z 0). rewrite <- Zlt_Qlt. unfold n. lia. }
  assert (Hfloor : (Qfloor (r * inject_Z n) < n)%Z).
  { rewrite Zlt_Qlt.
    eapply Qle_lt_trans; [apply Qfloor_le|].
    rewrite <- (Qmult_1_l (inject_Z n)) at 2.
    by apply Qmult_lt_compat_r. }
  subst n. lia.
Qed.

Lemma swap_Permutation result i j : swap result i j ≡ₚ result.
Proof.
  unfold swap.
  destruct (result !! i) as [ri|] eqn:Hi; [|done].
  destruct (result !! j) as [rj|] eqn:Hj; [|done].
  by apply Permutation_insert_swap.
Qed.

(** Within the array, [swap] is the exchange of the two elements. *)
Lemma swap_in_range result i j :
  (j ≤ i)%nat → (i < length result)%nat →
  ∃ ri rj, result !! i = Some ri ∧ result !! j = Some rj
           ∧ swap result i j = <[j := ri]> (<[i := rj]> result).
Proof.
  intros Hji Hi.
  destruct (lookup_lt_is_Some_2 result i Hi) as [ri Hri].
  destruct (lookup_lt_is_Some_2 result j ltac:(lia)) as [rj Hrj].
  exists ri, rj. unfold swap. by rewrite Hri, Hrj.
Qed.

Section RandomFacts.
Variable random : nat → Q.

Lemma shuffle_Permutation i result k :
  fst (shuffle random i result k) ≡ₚ result.
Proof.
  revert result k. induction i as [|i IH]; intros result k; simpl; [done|].
  rewrite IH. apply swap_Permutation.
Qed.

Lemma shuffle_attempts_spec remaining items result k :
  let out := shuffle_attempts random remaining items result k in
  fst out ≡ₚ result
  ∧ (snd out = true → every_differs (fst out) items 0 = true).
Proof.
  revert result k.
  induction remaining as [|n IH]; intros result k; simpl; [done|].
  pose proof (shuffle_Permutation (length result - 1) result k) as Hperm.
  destruct (shuffle random (length result - 1) result k) as [result' k'].
  simpl in Hperm.
  destruct (every_differs result' items 0) eqn:Hcheck; simpl; [done|].
  destruct (IH result' k') as [Hp Hd]. split; [by rewrite Hp|done].
Qed.
End RandomFacts.

Lemma every_differs_spec result items index :
  every_differs result items index = true →
  ∀ i b, result !! i = Some b →
    ∃ a, items !! (index + i)%nat = Some a ∧ Item.authorId b ≠ Item.authorId a.
Proof.
  revert index. induction result as [|item rest IH]; intros index Hev i b Hb.
  - by rewrite lookup_nil in Hb.
  - simpl in Hev.
    destruct (items !! index) as [original|] eqn:Horig; [|done].
    apply andb_true_iff in Hev as [Hhead Hrest].
    destruct i as [|i]; simpl in Hb.
    + injection Hb as <-. exists original.
      rewrite Nat.add_0_r. split; [done|].
      by apply negb_true_iff, bool_decide_eq_false in Hhead.
    + destruct (IH _ Hrest i b Hb) as (a & Ha & Hne).
      exists a. split; [|done]. by rewrite <- Nat.add_succ_comm.
Qed.

(** The fallback: with pairwise distinct authors and at least two items,
    moving the first item to the end leaves nobody in place. *)
Lemma rotation_no_fixed_point first rest :
  NoDup (map Item.authorId (first :: rest)) →
  (2 ≤ length (first :: rest))%nat →
  no_fixed_point (first :: rest) (rest ++ [first]).
Proof.
  intros Hnd Hlen i a b Ha Hb Heq.
  assert (Hai : map Item.authorId (first :: rest) !! i = Some (Item.authorId a))
    by by rewrite list_lookup_fmap, Ha.
  destruct (decide (i < length rest)%nat) as [Hlt|Hge].
  - rewrite lookup_app_l in Hb by done.
    assert (Hbi : map Item.authorId (first :: rest) !! S i
                  = Some (Item.authorId a)).
    { rewrite list_lookup_fmap. simpl. by rewrite Hb, <- Heq. }
    pose proof (NoDup_lookup _ _ _ _ Hnd Hai Hbi). lia.
  - apply lookup_lt_Some in Ha as Hi. simpl in Hi, Hlen.
    assert (i = length rest) as -> by lia.
    rewrite lookup_app_r, Nat.sub_diag in Hb by done.
    injection Hb as <-.
    assert (Hb0 : map Item.authorId (first :: rest) !! 0%nat
                  = Some (Item.authorId a)) by (simpl; by rewrite Heq).
    pose proof (NoDup_lookup _ _ _ _ Hnd Hai Hb0). lia.
Qed.

Lemma rotation_Permutation {A} (first : A) (rest : list A) :
  rest ++ [first] ≡ₚ first :: rest.
Proof. by rewrite Permutation_app_comm. Qed.

Lemma createDerangement_spec random items :
  NoDup (map Item.authorId items) → (2 ≤ length items)%nat →
  createDerangement random items ≡ₚ items
  ∧ no_fixed_point items (createDerangement random items).
Proof.
  intros Hnd Hlen. unfold createDerangement.
  destruct (Nat.ltb_spec (length items) 2) as [?|_]; [lia|].
  pose proof (shuffle_attempts_spec random 100 items items 0) as [Hperm Hder].
  destruct (shuffle_attempts random 100 items items 0) as [result [|]];
    simpl in *.
  - split; [done|]. intros i a b Ha Hb.
    destruct (every_differs_spec _ _ _ (Hder eq_refl) i b Hb) as (a' & Ha' & Hne).
    simpl in Ha'. congruence.
  - destruct items as [|first rest]; [simpl in Hlen; lia|].
    split; [apply rotation_Permutation|by apply rotation_no_fixed_point].
Qed.

(** C3. For items with pairwise distinct author ids and whatever the
    values of [Math.random()] are: a list of at least two items comes back
    as a permutation of itself in which every index holds an item of
    another author than the input has there; a list of zero or one item
    comes back unchanged. *)
Theorem createDerangement_derangement random items :
  NoDup (map Item.authorId items) →
  let result := createDerangement random items in
  ((length items < 2)%nat → result = items)
  ∧ ((2 ≤ length items)%nat →
       result ≡ₚ items
       ∧ length result = length items
       ∧ ∀ i a b, items !! i = Some a → result !! i = Some b →
                  Item.authorId b ≠ Item.authorId a).
Proof.
  intros Hnd result. split.
  - intros Hlt. unfold result, createDerangement.
    by destruct (Nat.ltb_spec (length items) 2) as [_|?]; [|lia].
  - intros Hlen.
    destruct (createDerangement_spec random items Hnd Hlen) as [Hperm Hnfp].
    split_and!; [done|by apply Permutation_length|exact Hnfp].
Qed.

Lemma createDerangement_derangement_witness :
  let result := createDerangement always_zero three_sentences in
  result = [Item.mk "B" bob; Item.mk "C" carol; Item.mk "A" alice]
  ∧ result ≡ₚ three_sentences
  ∧ ∀ i a b, three_sentences !! i = Some a → result !! i = Some b →
             Item.authorId b ≠ Item.authorId a.
Proof.
  assert (Hnd : NoDup (map Item.authorId three_sentences)).
  { apply (bool_decide_unpack _). vm_compute. reflexivity. }
  destruct (createDerangement_derangement always_zero three_sentences Hnd)
    as [_ Hlarge].
  destruct (Hlarge ltac:(simpl; lia)) as (Hperm & _ & Hnfp).
  split_and!; [reflexivity|exact Hperm|exact Hnfp].
Defined.

(** With two items the only derangement is the exchange (scenario 3 of the
    specification), whatever the random numbers. *)
Lemma createDerangement_two random a b :
  Item.authorId a ≠ Item.authorId b →
  createDerangement random [a; b] = [b; a].
Proof.
  intros Hab.
  assert (Hnd : NoDup (map Item.authorId [a; b])).
  { simpl. apply NoDup_cons. split; [|apply NoDup_singleton].
    by rewrite list_elem_of_singleton. }
  destruct (createDerangement_spec random [a; b] Hnd) as [Hperm Hnfp];
    [simpl; lia|].
  symmetry in Hperm. apply Permutation_length_2_inv in Hperm as [Heq|Heq];
    [|done].
  exfalso. rewrite Heq in Hnfp. by apply (Hnfp 0%nat a a).
Qed.

(** C4 fails on the code. Zed is a participant without a sentence ahead of
    Alice and Bob in [players]; the deranged list [B, A] is indexed by the
    position among all participants, not among the authors, so Alice is
    handed "A" and Bob "B": their own sentences, with two authored
    sentences in the room and for every outcome of the shuffle. *)
Theorem own_sentence_assigned random :
  ∃ st' lp sent,
    startDrawingPhase random full_network zed_emptied
    = Returns (mkHook (Some st') lp, sent)
    ∧ map drawing_view (players st')
      = [(host_id, None, None);
         (zed, Some "", Some "B");
         (alice, Some "A", Some "A");
         (bob, Some "B", Some "B")].
Proof.
  unfold startDrawingPhase.
  change (GameNetwork.isHost full_network) with true.
  cbn [negb].
  change (gameState zed_emptied) with
    (Some (mkGameState quiz "ABCD"
             [hostPlayer;
              with_sentence (newPlayer zed "Zed") (Some "");
              with_sentence (newPlayer alice "Alice") (Some "A");
              with_sentence (newPlayer bob "Bob") (Some "B")]
             0 ∅ QUIZ_DURATION DRAWING_DURATION 0 5 ∅)).
  cbv beta iota.
  change (map _ (List.filter _ (List.filter _ (players _))))
    with [Item.mk "A" alice; Item.mk "B" bob].
  rewrite createDerangement_two by done.
  eexists _, _, _. split; reflexivity.
Qed.

Lemma createDerangement_Permutation random items :
  createDerangement random items ≡ₚ items.
Proof.
  unfold createDerangement.
  destruct (length items <? 2)%nat; [done|].
  pose proof (shuffle_attempts_spec random 100 items items 0) as [Hperm _].
  destruct (shuffle_attempts random 100 items items 0) as [result [|]];
    simpl in *; [done|].
  destruct items as [|first rest]; [done|apply rotation_Permutation].
Qed.

(** The assignment loop reads past nothing as long as there is a sentence
    to hand out. *)
Lemma assign_returns participants index derangedSentences assignments :
  derangedSentences ≠ [] →
  ∃ assignments',
    assign participants index derangedSentences assignments
    = Returns assignments'.
Proof.
  intros Hne. revert index assignments.
  induction participants as [|player rest IH]; intros index assignments;
    simpl; [by eexists|].
  unfold at_mod.
  destruct (Nat.eqb_spec (length derangedSentences) 0) as [Hz|Hnz].
  { by destruct derangedSentences. }
  destruct (lookup_lt_is_Some_2 derangedSentences
              (index `mod` length derangedSentences)%nat) as [item ->];
    [by apply Nat.mod_upper_bound|].
  apply IH.
Qed.

(** [startDrawingPhase] does return when some participant authored a
    sentence. *)
Lemma startDrawingPhase_returns random network st lp p :
  p ∈ players st → isHost p = false → truthy (sentence p) = true →
  ∃ result, startDrawingPhase random network (mkHook (Some st) lp)
            = Returns result.
Proof.
  intros Hp Hpart Hsent. unfold startDrawingPhase.
  destruct (GameNetwork.isHost network); simpl; [|by eexists].
  set (authors := List.filter _ (List.filter _ (players st))).
  set (sentences := map _ authors).
  destruct (assign_returns
              (List.filter (fun p => negb (isHost p)) (players st)) 0
              (createDerangement random sentences) ∅) as [assignments ->];
    [|by eexists].
  intros Hnil.
  pose proof (Permutation_length (createDerangement_Permutation random sentences))
    as Hlen.
  rewrite Hnil in Hlen. unfold sentences in Hlen.
  rewrite length_map in Hlen. symmetry in Hlen.
  apply length_zero_iff_nil in Hlen.
  assert (Hin : In p authors).
  { unfold authors. rewrite !filter_In, <- list_elem_of_In.
    by rewrite Hpart, Hsent. }
  by rewrite Hlen in Hin.
Qed.

(** C8 fails on the code. On the host, with at least one participant in
    the room and no participant holding a non-empty sentence,
    [derangedSentences] is empty, the index modulo its length is [NaN],
    the element read is [undefined], and reading its [sentence] throws a
    [TypeError] out of [startDrawingPhase]. *)
Theorem startDrawingPhase_throws random network st lp p :
  GameNetwork.isHost network = true →
  p ∈ players st → isHost p = false →
  (∀ p', p' ∈ players st → isHost p' = false →
         truthy (sentence p') = false) →
  startDrawingPhase random network (mkHook (Some st) lp) = Throws TypeError.
Proof.
  intros Hhost Hp Hpart Hnone. unfold startDrawingPhase.
  rewrite Hhost. simpl.
  set (participants := List.filter _ (players st)).
  rewrite (filter_all_false _ participants).
  - assert (Hin : In p participants).
    { unfold participants. rewrite filter_In, <- list_elem_of_In.
      by rewrite Hpart. }
    by destruct participants.
  - intros p' Hp'. unfold participants in Hp'.
    apply filter_In in Hp' as [Hp' Hh].
    apply Hnone; [by apply list_elem_of_In|].
    by apply negb_true_iff in Hh.
Qed.

(** The room in which the host emptied all three sentences during the
    quiz: the transition to the drawing phase throws. *)
Lemma startDrawingPhase_throws_witness :
  startDrawingPhase always_zero full_network all_emptied = Throws TypeError.
Proof.
  apply (startDrawingPhase_throws always_zero full_network
           (mkGameState quiz "ABCD"
              [hostPlayer;
               with_sentence (newPlayer zed "Zed") (Some "");
               with_sentence (newPlayer alice "Alice") (Some "");
               with_sentence (newPlayer bob "Bob") (Some "")]
              0 ∅ QUIZ_DURATION DRAWING_DURATION 0 5 ∅)
           (Some hostPlayer)
           (with_sentence (newPlayer zed "Zed") (Some ""))).
  - reflexivity.
  - apply list_elem_of_In. simpl. auto.
  - reflexivity.
  - intros p' Hp' _. apply list_elem_of_In in Hp'. simpl in Hp'.
    destruct Hp' as [<-|[<-|[<-|[<-|[]]]]]; reflexivity.
Defined.

(** * Further properties of the engine *)

(** ** Tools and colours *)

Lemma getUnlockedTools_take quizScore :
  getUnlockedTools quizScore = take (1 + quizScore `min` 4) ALL_TOOLS.
Proof.
  destruct quizScore as [|[|[|[|n]]]]; try reflexivity.
  simpl. by rewrite Nat.min_0_r.
Qed.

Lemma getUnlockedColors_take quizScore :
  getUnlockedColors quizScore = take ((quizScore - 4) `min` 4) UNLOCKABLE_COLORS.
Proof.
  destruct quizScore as [|[|[|[|[|[|[|[|n]]]]]]]]; try reflexivity.
  simpl. by rewrite Nat.min_0_r.
Qed.

Lemma take_prefix_le {A} (l : list A) (n m : nat) :
  (n ≤ m)%nat → take n l `prefix_of` take m l.
Proof.
  intros Hle. replace (take n l) with (take n (take m l)).
  - apply prefix_take.
  - rewrite take_take. f_equal. lia.
Qed.

Lemma unlocked_total quizScore :
  (length (getUnlockedTools quizScore) + length (getUnlockedColors quizScore)
   = 1 + quizScore `min` 8)%nat.
Proof.
  rewrite getUnlockedColors_take, getUnlockedTools_take, !length_take.
  simpl. lia.
Qed.

(** X1. The pencil is always there, each point of score up to 4 unlocks
    exactly one more tool, and a higher score keeps the tools of a lower
    one, in the same order, in front of the new ones. *)
Theorem unlocked_tools_by_score (quizScore quizScore' : nat) :
  head (getUnlockedTools quizScore) = head BASE_TOOLS
  ∧ length (getUnlockedTools quizScore) = (1 + quizScore `min` 4)%nat
  ∧ ((quizScore ≤ quizScore')%nat →
     getUnlockedTools quizScore `prefix_of` getUnlockedTools quizScore').
Proof.
  split_and!.
  - by destruct quizScore as [|[|[|[|n]]]].
  - rewrite getUnlockedTools_take, length_take. simpl. lia.
  - intros Hle. rewrite !getUnlockedTools_take. apply take_prefix_le. lia.
Qed.

(** X2. No colour is unlocked below a score of 5; from there each point
    up to 8 unlocks exactly one colour, a higher score keeping the colours
    of a lower one. Together with the tools, a score [s] unlocks
    [1 + min s 8] items. *)
Theorem unlocked_colors_by_score (quizScore quizScore' : nat) :
  length (getUnlockedColors quizScore) = ((quizScore - 4) `min` 4)%nat
  ∧ ((quizScore ≤ quizScore')%nat →
     getUnlockedColors quizScore `prefix_of` getUnlockedColors quizScore')
  ∧ (length (getUnlockedTools quizScore) + length (getUnlockedColors quizScore)
     = 1 + quizScore `min` 8)%nat.
Proof.
  split_and!.
  - rewrite getUnlockedColors_take, length_take. simpl. lia.
  - intros Hle. rewrite !getUnlockedColors_take. apply take_prefix_le. lia.
  - apply unlocked_total.
Qed.
Lemma correct_count_le (answers : nat → option Z) :
  (correct_count answers ≤ length QUIZ_QUESTIONS)%nat.
Proof.
  unfold correct_count.
  etransitivity; [apply List.filter_length_le|]. by rewrite length_seq.
Qed.

(** X3. The score the reducer writes never exceeds the number of
    questions, 8; so after a [submit_quiz_answer] the sender has unlocked
    exactly one item (tool or colour) per point, besides the pencil. *)
Theorem quizScore_unlocks_one_per_point network st sender q a :
  let st' := reduce network (mkMessage (submit_quiz_answer q a) sender) st in
  Forall (fun p => id p = sender →
            (quizScore p ≤ length QUIZ_QUESTIONS)%nat
            ∧ (length (getUnlockedTools (quizScore p))
               + length (getUnlockedColors (quizScore p))
               = 1 + quizScore p)%nat)
         (players st').
Proof.
  intros st'. apply Forall_forall. intros p Hp Hid.
  assert (Hle : (quizScore p ≤ length QUIZ_QUESTIONS)%nat).
  { rewrite (quiz_step_score network st sender q a p Hp Hid).
    apply correct_count_le. }
  split; [done|].
  rewrite unlocked_total. simpl in Hle. lia.
Qed.

(** ** Room codes *)

Lemma random_floor_range (r : Q) (n : Z) :
  (0 <= r)%Q → (r < 1)%Q → (0 < n)%Z →
  (0 ≤ Qfloor (r * inject_Z n) < n)%Z.
Proof.
  intros Hge Hlt Hn.
  assert (Hn' : (0 < inject_Z n)%Q).
  { change 0%Q with (inject_Z 0). by rewrite <- Zlt_Qlt. }
  split.
  - change 0%Z with (Qfloor 0). apply Qfloor_resp_le.
    apply Qmult_le_0_compat; [done|]. by apply Qlt_le_weak.
  - rewrite Zlt_Qlt.
    eapply Qle_lt_trans; [apply Qfloor_le|].
    rewrite <- (Qmult_1_l (inject_Z n)) at 2.
    by apply Qmult_lt_compat_r.
Qed.

Lemma get_characters (s : string) (n : nat) :
  (n < String.length s)%nat →
  ∃ c, String.get n s = Some c ∧ c ∈ characters s.
Proof.
  revert n. induction s as [|c s IH]; intros n Hn; simpl in *; [lia|].
  destruct n as [|n].
  - exists c. split; [done|]. unfold characters. simpl. apply list_elem_of_here.
  - destruct (IH n ltac:(lia)) as (c' & Hget & Hin).
    exists c'. split; [done|]. unfold characters in *. simpl.
    by apply list_elem_of_further.
Qed.

Lemma char_at_in_range (s : string) (i : Z) :
  (0 ≤ i < Z.of_nat (String.length s))%Z →
  ∃ c, char_at s i = String c EmptyString ∧ c ∈ characters s.
Proof.
  intros [Hge Hlt]. unfold char_at.
  destruct (Z.ltb_spec i 0) as [?|_]; [lia|].
  destruct (get_characters s (Z.to_nat i) ltac:(lia)) as (c & -> & Hin).
  by exists c.
Qed.

Lemma characters_snoc (s : string) (c : Ascii.ascii) :
  characters (String.append s (String c EmptyString)) = characters s ++ [c].
Proof.
  unfold characters. induction s as [|c' s IH]; simpl; [done|]. by rewrite IH.
Qed.

Lemma generateRoomCode_loop_characters random n k code :
  (∀ j, (0 <= random j)%Q ∧ (random j < 1)%Q) →
  ∃ cs, characters (generateRoomCode_loop random n k code) = characters code ++ cs
        ∧ length cs = n
        ∧ Forall (fun c => c ∈ characters chars) cs.
Proof.
  intros Hrange. revert k code.
  induction n as [|n IH]; intros k code; cbn [generateRoomCode_loop].
  - exists []. by rewrite app_nil_r.
  - destruct (Hrange k) as [Hge Hlt].
    destruct (char_at_in_range chars
                (Qfloor (random k * inject_Z (Z.of_nat (String.length chars)))))
      as (c & Hc & Hin).
    { apply random_floor_range; [done..|]. simpl. lia. }
    rewrite Hc.
    destruct (IH (S k) (String.append code (String c EmptyString)))
      as (cs & Hcs & Hlen & Hall).
    exists (c :: cs). rewrite Hcs, characters_snoc, <- app_assoc.
    split_and!; [done|simpl; lia|by constructor].
Qed.

Lemma chars_unambiguous :
  Forall (fun c => c ∉ characters ambiguous) (characters chars).
Proof. apply (bool_decide_unpack _). vm_compute. reflexivity. Qed.

(** X4. Whatever values in [[0, 1)] [Math.random()] returns, the room
    code has four characters, each one a character of [chars] and none of
    them one of the look-alikes 0, O, 1 and I. *)
Theorem generateRoomCode_alphabet random :
  (∀ k, (0 <= random k)%Q ∧ (random k < 1)%Q) →
  let code := generateRoomCode random in
  String.length code = 4%nat
  ∧ Forall (fun c => c ∈ characters chars ∧ c ∉ characters ambiguous)
           (characters code).
Proof.
  intros Hrange code.
  destruct (generateRoomCode_loop_characters random 4 0 "" Hrange)
    as (cs & Hcs & Hlen & Hall).
  fold (generateRoomCode random) in Hcs. fold code in Hcs. simpl in Hcs.
  split.
  - rewrite <- Hlen, <- Hcs. unfold characters.
    clear. induction code as [|c s IH]; simpl; [done|]. by rewrite IH.
  - rewrite Hcs. apply Forall_forall. intros c Hc.
    rewrite Forall_forall in Hall. split; [by apply Hall|].
    pose proof chars_unambiguous as Hchars. rewrite Forall_forall in Hchars.
    by apply Hchars, Hall.
Qed.

Lemma generateRoomCode_alphabet_witness :
  generateRoomCode always_zero = "AAAA"
  ∧ String.length (generateRoomCode always_zero) = 4%nat
  ∧ Forall (fun c => c ∈ characters chars ∧ c ∉ characters ambiguous)
           (characters (generateRoomCode always_zero)).
Proof.
  split; [reflexivity|].
  apply (generateRoomCode_alphabet always_zero).
  intros k. split; [discriminate|reflexivity].
Defined.
(** ** The connection table *)

Lemma get_None_not_key conns k :
  k ∉ map fst conns → GameNetwork.get conns k = None.
Proof.
  induction conns as [|[k' c] conns IH]; simpl; [done|].
  rewrite not_elem_of_cons. intros [Hne Hnin].
  rewrite bool_decide_eq_false_2 by done. by apply IH.
Qed.

Lemma get_Some_elem conns k c :
  GameNetwork.get conns k = Some c → (k, c) ∈ conns.
Proof.
  induction conns as [|[k' c'] conns IH]; simpl; [done|].
  case_bool_decide as Hk.
  - intros [= ->]. subst. apply list_elem_of_here.
  - intros Hget. apply list_elem_of_further. by apply IH.
Qed.

Lemma table_wf_cons k c conns :
  table_wf ((k, c) :: conns) ↔ k = peer c ∧ (k ∉ map fst conns) ∧ table_wf conns.
Proof.
  unfold table_wf. simpl. rewrite NoDup_cons. split.
  - intros [[Hk Hnd] Hall]. split_and!; try done.
    + apply Hall, list_elem_of_here.
    + intros k' c' Hin. by apply Hall, list_elem_of_further.
  - intros (-> & Hk & Hnd & Hall). split_and!; try done.
    intros k' c' [[= -> ->]|Hin]%elem_of_cons; [done|by apply Hall].
Qed.

Lemma sent_to_snapshot_to_open network st k :
  table_wf (GameNetwork.connections network) →
  sent_to k (snapshot_to_open network st)
  = match GameNetwork.get (GameNetwork.connections network) k with
    | Some c => if open c then [snapshot network st] else []
    | None => []
    end.
Proof.
  unfold snapshot_to_open, snapshot.
  induction (GameNetwork.connections network) as [|[k' c] conns IH];
    [done|].
  intros (-> & Hnin & Hwf)%table_wf_cons. specialize (IH Hwf). simpl.
  case_bool_decide as Hk.
  - subst k. rewrite (get_None_not_key _ _ Hnin) in IH.
    destruct (open c); simpl; [|done].
    unfold sent_to in *. simpl. rewrite bool_decide_eq_true_2 by done.
    simpl. by rewrite IH.
  - destruct (open c); simpl; [|done].
    unfold sent_to in *. simpl. by rewrite bool_decide_eq_false_2.
Qed.

(** X5. With the table in the shape [setupConnection] keeps it, a
    broadcast of the host puts exactly one snapshot on the wire for each
    peer whose connection is open, and none for a peer whose connection is
    not open or that is not in the table. *)
Theorem broadcast_once_per_peer network st k :
  GameNetwork.isHost network = true →
  table_wf (GameNetwork.connections network) →
  sent_to k (GameNetwork.broadcastGameState network st)
  = match GameNetwork.get (GameNetwork.connections network) k with
    | Some c => if open c then [snapshot network st] else []
    | None => []
    end.
Proof.
  intros Hhost Hwf.
  rewrite broadcast_is_snapshot_to_open by done.
  by apply sent_to_snapshot_to_open.
Qed.

Lemma sample_network_wf : table_wf (GameNetwork.connections sample_network).
Proof.
  split.
  - apply (bool_decide_unpack _). vm_compute. reflexivity.
  - intros k c Hin. simpl in Hin.
    apply elem_of_cons in Hin as [[= -> ->]|Hin]; [done|].
    apply list_elem_of_singleton in Hin as [= -> ->]. done.
Qed.

Lemma broadcast_once_per_peer_witness :
  sent_to alice (GameNetwork.broadcastGameState sample_network sample_room)
  = [snapshot sample_network sample_room]
  ∧ sent_to bob (GameNetwork.broadcastGameState sample_network sample_room) = []
  ∧ sent_to carol (GameNetwork.broadcastGameState sample_network sample_room) = [].
Proof.
  split_and!.
  - exact (broadcast_once_per_peer sample_network sample_room alice eq_refl
             sample_network_wf).
  - exact (broadcast_once_per_peer sample_network sample_room bob eq_refl
             sample_network_wf).
  - exact (broadcast_once_per_peer sample_network sample_room carol eq_refl
             sample_network_wf).
Defined.

Lemma table_set_keys conns k c :
  map fst (table_set conns k c)
  = if bool_decide (k ∈ map fst conns) then map fst conns
    else map fst conns ++ [k].
Proof.
  induction conns as [|[k' c'] conns IH]; simpl; [done|].
  destruct (decide (k' = k)) as [->|Hne].
  - rewrite !bool_decide_eq_true_2; [done|apply list_elem_of_here|done].
  - rewrite (bool_decide_eq_false_2 (k' = k)) by done. simpl. rewrite IH.
    destruct (decide (k ∈ map fst conns)) as [Hin|Hnin].
    + rewrite !bool_decide_eq_true_2; [done|by apply list_elem_of_further|done].
    + rewrite !bool_decide_eq_false_2; [done| |done].
      rewrite not_elem_of_cons. naive_solver.
Qed.

Lemma elem_of_table_set conns k c k' c' :
  (k', c') ∈ table_set conns k c → (k' = k ∧ c' = c) ∨ (k', c') ∈ conns.
Proof.
  induction conns as [|[k0 c0] conns IH]; simpl.
  - intros [= -> ->]%list_elem_of_singleton. by left.
  - case_bool_decide as Hk.
    + intros [[= -> ->]|Hin]%elem_of_cons; [by left|].
      right. by apply list_elem_of_further.
    + intros [[= -> ->]|Hin]%elem_of_cons.
      * right. apply list_elem_of_here.
      * destruct (IH Hin) as [?|?]; [by left|].
        right. by apply list_elem_of_further.
Qed.

Lemma get_table_set conns k c k' :
  GameNetwork.get (table_set conns k c) k'
  = if bool_decide (k = k') then Some c else GameNetwork.get conns k'.
Proof.
  induction conns as [|[k0 c0] conns IH]; simpl.
  - by destruct (bool_decide (k = k')).
  - destruct (decide (k0 = k)) as [->|Hne].
    + rewrite (bool_decide_eq_true_2 (k = k)) by done. simpl.
      by destruct (bool_decide (k = k')).
    + rewrite (bool_decide_eq_false_2 (k0 = k)) by done. simpl. rewrite IH.
      destruct (decide (k0 = k')) as [->|Hne'].
      * rewrite (bool_decide_eq_true_2 (k' = k')) by done.
        by rewrite bool_decide_eq_false_2 by done.
      * by rewrite (bool_decide_eq_false_2 (k0 = k')) by done.
Qed.

Lemma table_set_wf conns conn :
  table_wf conns → table_wf (table_set conns (peer conn) conn).
Proof.
  intros [Hnd Hall]. split.
  - rewrite table_set_keys. case_bool_decide as Hin; [done|].
    apply NoDup_app. split_and!; [done| |apply NoDup_singleton].
    intros k Hk ->%list_elem_of_singleton. done.
  - intros k c [[-> ->]|Hin]%elem_of_table_set; [done|by apply Hall].
Qed.

Lemma get_table_delete conns k k' :
  GameNetwork.get (table_delete conns k) k'
  = if bool_decide (k = k') then None else GameNetwork.get conns k'.
Proof.
  unfold table_delete.
  induction conns as [|[k0 c0] conns IH]; simpl.
  - by destruct (bool_decide (k = k')).
  - destruct (decide (k0 = k)) as [->|Hne].
    + rewrite (bool_decide_eq_true_2 (k = k)) by done. simpl. rewrite IH.
      by destruct (bool_decide (k = k')).
    + rewrite (bool_decide_eq_false_2 (k0 = k)) by done. simpl. rewrite IH.
      destruct (decide (k0 = k')) as [->|Hne'].
      * rewrite (bool_decide_eq_true_2 (k' = k')) by done.
        by rewrite bool_decide_eq_false_2 by done.
      * by rewrite (bool_decide_eq_false_2 (k0 = k')) by done.
Qed.

Lemma table_delete_wf conns k : table_wf conns → table_wf (table_delete conns k).
Proof.
  induction conns as [|[k0 c0] conns IH]; [done|].
  intros (-> & Hnin & Hwf)%table_wf_cons. unfold table_delete in *. simpl.
  destruct (bool_decide (peer c0 = k)); simpl; [by apply IH|].
  apply table_wf_cons. split_and!; [done| |by apply IH].
  intros Hin. apply Hnin. apply list_elem_of_fmap in Hin as ([k1 c1] & -> & Hin).
  apply list_elem_of_In, filter_In in Hin as [Hin _].
  apply list_elem_of_fmap. exists (k1, c1). by rewrite list_elem_of_In.
Qed.

(** X6. The ["open"] event files the connection under its peer id: the
    table stays one entry per peer, a look-up of that peer finds the new
    connection (replacing an older one of the same peer), every other
    peer's entry is untouched, and the count grows by one exactly when the
    peer was not in the table. *)
Theorem onConnOpen_registers network conn :
  table_wf (GameNetwork.connections network) →
  let network' := onConnOpen network conn in
  table_wf (GameNetwork.connections network')
  ∧ GameNetwork.get (GameNetwork.connections network') (peer conn) = Some conn
  ∧ (∀ k, k ≠ peer conn →
          GameNetwork.get (GameNetwork.connections network') k
          = GameNetwork.get (GameNetwork.connections network) k)
  ∧ getConnectionCount network'
    = (getConnectionCount network
       + if bool_decide (peer conn ∈ map fst (GameNetwork.connections network))
         then 0 else 1)%nat.
Proof.
  intros Hwf network'. unfold network', onConnOpen. simpl. split_and!.
  - by apply table_set_wf.
  - rewrite get_table_set. by rewrite bool_decide_eq_true_2.
  - intros k Hk. rewrite get_table_set. by rewrite bool_decide_eq_false_2.
  - unfold getConnectionCount. simpl.
    rewrite <- (length_map fst (table_set _ _ _)), table_set_keys.
    case_bool_decide; rewrite ?length_app, length_map; simpl; lia.
Qed.

Lemma onConnOpen_registers_witness :
  let network' := onConnOpen sample_network (mkConn bob true) in
  GameNetwork.connections network'
  = [(alice, mkConn alice true); (bob, mkConn bob true)]
  ∧ table_wf (GameNetwork.connections network')
  ∧ getConnectionCount network' = 2%nat.
Proof.
  destruct (onConnOpen_registers sample_network (mkConn bob true)
              sample_network_wf) as (Hwf & _ & _ & Hcount).
  split_and!; [reflexivity|exact Hwf|exact Hcount].
Defined.
(** X7. The ["close"] event of a connection on the host: the peer's entry
    leaves the table (the others stay), the players of that id leave the
    state, and the snapshot of the new state goes once to every remaining
    peer with an open connection; nothing is sent to the peer that left. *)
Theorem onConnClose_forgets network st lp conn :
  GameNetwork.isHost network = true →
  table_wf (GameNetwork.connections network) →
  let result := onConnClose network (mkHook (Some st) lp) conn in
  let network' := fst result in
  let st' := with_players st
               (List.filter (fun p => negb (bool_decide (id p = peer conn)))
                            (players st)) in
  table_wf (GameNetwork.connections network')
  ∧ GameNetwork.get (GameNetwork.connections network') (peer conn) = None
  ∧ fst (snd result) = mkHook (Some st') lp
  ∧ sent_to (peer conn) (snd (snd result)) = []
  ∧ ∀ k, k ≠ peer conn →
      GameNetwork.get (GameNetwork.connections network') k
      = GameNetwork.get (GameNetwork.connections network) k
      ∧ sent_to k (snd (snd result))
        = match GameNetwork.get (GameNetwork.connections network) k with
          | Some c => if open c then [snapshot network st'] else []
          | None => []
          end.
Proof.
  intros Hhost Hwf result network' st'.
  assert (Hwf' : table_wf (GameNetwork.connections network'))
    by by apply table_delete_wf.
  assert (Hsent : ∀ k, sent_to k (snd (snd result))
            = match GameNetwork.get (GameNetwork.connections network') k with
              | Some c => if open c then [snapshot network st'] else []
              | None => []
              end).
  { intros k. unfold result, onConnClose. rewrite Hhost.
    cbn [snd onDisconnection gameState].
    rewrite broadcast_is_snapshot_to_open by done.
    exact (sent_to_snapshot_to_open network' st' k Hwf'). }
  assert (Hget : ∀ k, GameNetwork.get (GameNetwork.connections network') k
            = if bool_decide (peer conn = k) then None
              else GameNetwork.get (GameNetwork.connections network) k)
    by (intros k; apply get_table_delete).
  split_and!.
  - done.
  - by rewrite Hget, bool_decide_eq_true_2.
  - unfold result, onConnClose. by rewrite Hhost.
  - by rewrite Hsent, Hget, bool_decide_eq_true_2.
  - intros k Hk. rewrite Hsent, Hget.
    by rewrite bool_decide_eq_false_2 by done.
Qed.

Lemma full_network_wf : table_wf (GameNetwork.connections full_network).
Proof.
  split.
  - apply (bool_decide_unpack _). vm_compute. reflexivity.
  - intros k c Hin. simpl in Hin.
    repeat (apply elem_of_cons in Hin as [[= -> ->]|Hin]; [done|]).
    by apply elem_of_nil in Hin.
Qed.

Lemma onConnClose_forgets_witness :
  let result := onConnClose full_network (mkHook (Some sample_room) None)
                            (mkConn alice true) in
  map fst (GameNetwork.connections (fst result)) = [zed; bob]
  ∧ (map id <$> (players <$> gameState (fst (snd result)))) = Some [host_id; bob]
  ∧ sent_to alice (snd (snd result)) = []
  ∧ length (sent_to bob (snd (snd result))) = 1%nat.
Proof.
  destruct (onConnClose_forgets full_network sample_room None (mkConn alice true)
              eq_refl full_network_wf) as (_ & _ & Hst & Halice & Hrest).
  split_and!; [reflexivity|by rewrite Hst|exact Halice|].
  destruct (Hrest bob ltac:(done)) as [_ ->]. reflexivity.
Defined.

(** ** What the reducer keeps *)

Lemma reduce_frame network m st :
  let st' := reduce network m st in
  phase st' = phase st ∧ roomCode st' = roomCode st
  ∧ currentQuestionIndex st' = currentQuestionIndex st
  ∧ quizTimeRemaining st' = quizTimeRemaining st
  ∧ drawingTimeRemaining st' = drawingTimeRemaining st
  ∧ currentSlideIndex st' = currentSlideIndex st
  ∧ slideTimeRemaining st' = slideTimeRemaining st.
Proof. unfold reduce, hostReducer. by destruct (body m). Qed.

Lemma map_identity_if (c : Player → bool) (f : Player → Player) ps :
  (∀ p, identity (f p) = identity p) →
  map identity (map (fun p => if c p then f p else p) ps) = map identity ps.
Proof.
  intros Hf. rewrite map_map. apply map_ext. intros p.
  by destruct (c p).
Qed.

Lemma reduce_identities network m st :
  map identity (players (reduce network m st))
  = map identity (players st) ++ joiners [m].
Proof.
  unfold reduce, hostReducer. simpl.
  destruct (body m); simpl; rewrite ?app_nil_r;
    try done; try (by apply map_identity_if).
  by rewrite map_app.
Qed.

Lemma joiners_app ms1 ms2 : joiners (ms1 ++ ms2) = joiners ms1 ++ joiners ms2.
Proof.
  induction ms1 as [|m ms1 IH]; simpl; [done|].
  destruct (body m); simpl; by rewrite IH.
Qed.

Lemma hosts_of_identities ps :
  length (List.filter isHost ps)
  = length (List.filter (fun i : string * string * bool => snd i) (map identity ps)).
Proof. by rewrite filter_map_length. Qed.

Lemma joiners_not_host messages :
  List.filter (fun i : string * string * bool => snd i) (joiners messages) = [].
Proof.
  induction messages as [|m messages IH]; simpl; [done|].
  by destruct (body m).
Qed.

(** X8. Whatever messages arrive, in whatever order, the reducer leaves
    the phase, the room code, the question and slide indices and the three
    timers alone; the players keep their ids, names and host flags and
    their order, a [player_joined] adding one non-host at the end: the
    list of identities is the old one followed by the joiners in arrival
    order. In particular the number of hosts never changes. *)
Theorem reducer_keeps_phase_and_identities network messages st :
  let st' := reduce_all network messages st in
  phase st' = phase st ∧ roomCode st' = roomCode st
  ∧ currentQuestionIndex st' = currentQuestionIndex st
  ∧ quizTimeRemaining st' = quizTimeRemaining st
  ∧ drawingTimeRemaining st' = drawingTimeRemaining st
  ∧ currentSlideIndex st' = currentSlideIndex st
  ∧ slideTimeRemaining st' = slideTimeRemaining st
  ∧ map identity (players st') = map identity (players st) ++ joiners messages
  ∧ length (List.filter isHost (players st'))
    = length (List.filter isHost (players st)).
Proof.
  induction messages as [|m messages IH] using rev_ind.
  - simpl. by rewrite app_nil_r.
  - cbv zeta in *. rewrite reduce_all_snoc.
    destruct (reduce_frame network m (reduce_all network messages st))
      as (-> & -> & -> & -> & -> & -> & ->).
    destruct IH as (-> & -> & -> & -> & -> & -> & -> & Hid & Hhosts).
    assert (Hid' : map identity (players (reduce network m
                                            (reduce_all network messages st)))
                   = map identity (players st) ++ joiners (messages ++ [m])).
    { by rewrite reduce_identities, Hid, joiners_app, app_assoc. }
    split_and!; try done.
    rewrite hosts_of_identities, Hid', List.filter_app, joiners_not_host.
    by rewrite app_nil_r, <- hosts_of_identities.
Qed.
Lemma elem_of_map_if (c : Player → bool) (f : Player → Player) ps p' :
  p' ∈ map (fun p => if c p then f p else p) ps →
  ∃ p, p ∈ ps ∧ p' = if c p then f p else p.
Proof.
  intros Hin. apply list_elem_of_In, in_map_iff in Hin as (p & <- & Hin).
  exists p. by rewrite list_elem_of_In.
Qed.

Lemma reduce_keeps_consistent network m st :
  derived_consistent st → join_fresh st m →
  derived_consistent (reduce network m st).
Proof.
  intros Hinv Hfresh. destruct m as [b sender]. unfold join_fresh in Hfresh.
  simpl in Hfresh.
  destruct b as [playerName|s|q a|url|target ty| | |]; try exact Hinv.
  - (* player_joined *)
    intros p Hp. unfold reduce in Hp. simpl in Hp.
    apply elem_of_app in Hp as [Hp|Hp]; [by apply Hinv|].
    apply list_elem_of_singleton in Hp as ->.
    destruct Hfresh as (Hscore & Hup & Hdown). simpl.
    change (recorded (reduce network _ st) sender) with (recorded st sender).
    change (votes (reduce network _ st) sender) with (votes st sender).
    by rewrite Hscore, Hup, Hdown.
  - (* submit_sentence *)
    intros p' Hp'. unfold reduce in Hp'. simpl in Hp'.
    apply elem_of_map_if in Hp' as (p & Hp & ->).
    destruct (Hinv p Hp) as (? & ? & ?).
    by destruct (bool_decide (id p = sender)).
  - (* submit_quiz_answer *)
    intros p' Hp'.
    destruct (decide (id p' = sender)) as [Hid|Hid].
    + split.
      { rewrite Hid. by apply (quiz_step_score network st sender q a). }
      unfold reduce in Hp'. simpl in Hp'.
      apply elem_of_map_if in Hp' as (p & Hp & ->).
      destruct (Hinv p Hp) as (_ & ? & ?).
      by destruct (bool_decide (id p = sender)).
    + unfold reduce in Hp'. simpl in Hp'.
      apply elem_of_map_if in Hp' as (p & Hp & ->).
      destruct (Hinv p Hp) as (Hs & ? & ?).
      case_bool_decide as Hp'; [done|]. split; [|done].
      rewrite Hs. apply correct_count_ext. intros i.
      rewrite recorded_reduce. simpl.
      rewrite bool_decide_eq_false_2; [done|]. by intros [? _].
  - (* submit_drawing *)
    intros p' Hp'. unfold reduce in Hp'. simpl in Hp'.
    apply elem_of_map_if in Hp' as (p & Hp & ->).
    destruct (Hinv p Hp) as (? & ? & ?).
    by destruct (bool_decide (id p = sender)).
  - (* submit_reaction *)
    intros p' Hp'. rewrite reduce_reaction in *.
    unfold set_counts in Hp'. simpl in Hp'.
    apply elem_of_map_if in Hp' as (p & Hp & ->).
    destruct (Hinv p Hp) as (Hs & Hu & Hd).
    unfold votes. simpl.
    case_bool_decide as Hid; simpl.
    + rewrite Hid, lookup_insert_eq. simpl. split; [|done].
      by rewrite <- Hid.
    + by rewrite lookup_insert_ne.
Qed.

Lemma createRoom_consistent network room hostName st :
  gameState (createRoom network room hostName) = Some st →
  derived_consistent st.
Proof.
  intros [= <-] p Hp. simpl in Hp. apply list_elem_of_singleton in Hp as ->.
  done.
Qed.

(** X9. The derived fields stay true to the records. In a state where
    every player's score is the count of correct recorded answers and the
    two thumb counts are the lengths of the voter lists recorded for the
    player (as in a room just created), any run of messages keeps it so for
    every player, provided each [player_joined] arrives when nothing is
    recorded under the joiner's id; a join of an id that already has
    answers or votes would start that player at 0 regardless. *)
Theorem derived_fields_consistent network messages st :
  derived_consistent st → joins_fresh network messages st →
  derived_consistent (reduce_all network messages st).
Proof.
  revert st. induction messages as [|m messages IH]; intros st Hinv Hfresh;
    [done|].
  destruct Hfresh as [Hm Hrest]. simpl. apply IH; [|done].
  by apply reduce_keeps_consistent.
Qed.
Lemma derived_fields_consistent_witness :
  derived_consistent
    (reduce_all sample_network
       [mkMessage (player_joined "Alice") alice;
        mkMessage (submit_quiz_answer 0 2) alice;
        mkMessage (player_joined "Bob") bob;
        mkMessage (submit_reaction alice thumbsUpR) bob]
       room_created).
Proof.
  apply derived_fields_consistent.
  - by apply (createRoom_consistent sample_network "ABCD" "Host").
  - simpl. split_and!; try done; vm_compute; reflexivity.
Defined.

(** ** Snapshots and replicas *)

Lemma send_constant network message to msg :
  (to, msg) ∈ GameNetwork.send network message → msg = message.
Proof.
  unfold GameNetwork.send. destruct (GameNetwork.isHost network).
  - intros Hin. apply list_elem_of_In, in_flat_map in Hin as (kc & _ & Hin).
    destruct (open kc.2); simpl in Hin; [|done].
    destruct Hin as [[= _ <-]|[]]. done.
  - destruct (GameNetwork.hostConnection network) as [c|]; [|by intros ?%elem_of_nil].
    destruct (open c); [|by intros ?%elem_of_nil].
    by intros [= _ <-]%list_elem_of_singleton.
Qed.

(** Whatever the host sends while handling a message is the snapshot of
    the state it ends in. *)
Lemma hostReducer_sends_snapshot network m st to msg :
  (to, msg) ∈ snd (hostReducer network m st) →
  msg = snapshot network (reduce network m st).
Proof.
  unfold reduce, hostReducer, snapshot.
  destruct (body m); simpl; try (by apply send_constant).
  unfold GameNetwork.sendToPlayer.
  destruct (GameNetwork.get _ _) as [c|]; [|by intros ?%elem_of_nil].
  destruct (open c); [|by intros ?%elem_of_nil].
  by intros [= _ <-]%list_elem_of_singleton.
Qed.

Lemma replica_takes_snapshot replica h sender st :
  GameNetwork.isHost replica = false →
  handleMessage replica h (mkMessage (game_state_update st) sender)
  = (mkHook (Some st)
       (match own_entry replica (players st) with
        | Some player => Some player
        | None => localPlayer h
        end), []).
Proof. intros Hpart. unfold handleMessage. by rewrite Hpart. Qed.

(** X10. Every message the host puts on the wire while handling a message
    (a broadcast after an intent, the direct reply to a [request_sync]) is
    a snapshot of the host's state after that message; a participant that
    handles it, whatever it held before, holds exactly that state
    afterwards, sends nothing, and takes as local player its own entry of
    the snapshot when there is one. *)
Theorem snapshot_overwrites_replica host st lp m to msg replica h :
  GameNetwork.isHost host = true →
  GameNetwork.isHost replica = false →
  (to, msg) ∈ snd (handleMessage host (mkHook (Some st) lp) m) →
  let st' := reduce host m st in
  fst (handleMessage host (mkHook (Some st) lp) m) = mkHook (Some st') lp
  ∧ handleMessage replica h msg
    = (mkHook (Some st')
         (match own_entry replica (players st') with
          | Some player => Some player
          | None => localPlayer h
          end), []).
Proof.
  intros Hhost Hpart Hin st'.
  unfold handleMessage in Hin |- * at 1. rewrite Hhost in *. simpl in *.
  unfold st', reduce.
  destruct (hostReducer host m st) as [s out] eqn:E. simpl in *.
  split; [done|].
  assert (Hmsg : msg = snapshot host s).
  { pose proof (hostReducer_sends_snapshot host m st to msg) as H.
    unfold reduce in H. rewrite E in H. by apply H. }
  rewrite Hmsg. by apply replica_takes_snapshot.
Qed.
Lemma snapshot_overwrites_replica_witness :
  let m := mkMessage (submit_sentence "A cat on the moon") alice in
  let st' := reduce sample_network m sample_room in
  handleMessage alice_network (mkHook None None) (snapshot sample_network st')
  = (mkHook (Some st') (own_entry alice_network (players st')), [])
  ∧ (sentence <$> own_entry alice_network (players st'))
    = Some (Some "A cat on the moon").
Proof.
  intros m st'.
  destruct (snapshot_overwrites_replica sample_network sample_room None m
              alice (snapshot sample_network st') alice_network
              (mkHook None None) eq_refl eq_refl) as [_ Hreplica].
  { apply list_elem_of_here. }
  split; [exact Hreplica|reflexivity].
Defined.

Lemma sent_to_app k sent1 sent2 :
  sent_to k (sent1 ++ sent2) = sent_to k sent1 ++ sent_to k sent2.
Proof. unfold sent_to. by rewrite List.filter_app, map_app. Qed.

Lemma wf_get_peer conns k c :
  table_wf conns → GameNetwork.get conns k = Some c → peer c = k.
Proof.
  intros [_ Hall] Hget. symmetry. by apply Hall, get_Some_elem.
Qed.

Lemma sent_to_sendToPlayer network k message conn :
  table_wf (GameNetwork.connections network) →
  GameNetwork.get (GameNetwork.connections network) k = Some conn →
  open conn = true →
  sent_to k (GameNetwork.sendToPlayer network k message) = [message].
Proof.
  intros Hwf Hget Hopen. unfold GameNetwork.sendToPlayer, sent_to.
  rewrite Hget, Hopen. simpl.
  by rewrite (wf_get_peer _ _ _ Hwf Hget), bool_decide_eq_true_2.
Qed.

Lemma own_entry_joined network ps playerName :
  GameNetwork.playerId network ∉ map id ps →
  own_entry network (ps ++ [newPlayer (GameNetwork.playerId network) playerName])
  = Some (newPlayer (GameNetwork.playerId network) playerName).
Proof.
  unfold own_entry. induction ps as [|p ps IH]; simpl.
  - intros _. by rewrite bool_decide_eq_true_2.
  - rewrite not_elem_of_cons. intros [Hne Hnin].
    rewrite bool_decide_eq_false_2 by done. by apply IH.
Qed.

Lemma handleMessage_host network st lp m :
  GameNetwork.isHost network = true →
  handleMessage network (mkHook (Some st) lp) m
  = (mkHook (Some (reduce network m st)) lp, snd (hostReducer network m st)).
Proof.
  intros Hhost. unfold handleMessage, reduce. rewrite Hhost. simpl.
  by destruct (hostReducer network m st).
Qed.

(** X11. The join handshake. A participant whose channel the host holds
    open sends [player_joined] and then [request_sync]. The host ends with
    the participant appended to [players]; the participant is sent that
    state twice (the broadcast, then the direct reply); after handling
    both it holds the host's state, and, unless its id was already among
    the players, its local player is the entry just appended. *)
Theorem join_handshake host st lp joiner playerName conn h :
  GameNetwork.isHost host = true →
  table_wf (GameNetwork.connections host) →
  GameNetwork.get (GameNetwork.connections host) (GameNetwork.playerId joiner)
  = Some conn →
  open conn = true →
  GameNetwork.isHost joiner = false →
  let X := GameNetwork.playerId joiner in
  let st' := with_players st (players st ++ [newPlayer X playerName]) in
  let result := handle_all_sent host (joinRoom_messages joiner playerName)
                                (mkHook (Some st) lp) in
  let received := sent_to X (snd result) in
  fst result = mkHook (Some st') lp
  ∧ received = [snapshot host st'; snapshot host st']
  ∧ gameState (handle_all joiner received h) = Some st'
  ∧ (X ∉ map id (players st) →
     localPlayer (handle_all joiner received h) = Some (newPlayer X playerName)).
Proof.
  intros Hhost Hwf Hget Hopen Hpart X st' result received.
  assert (Hresult : result
            = (mkHook (Some st') lp,
               ([] ++ GameNetwork.broadcastGameState host st')
               ++ GameNetwork.sendToPlayer host X (snapshot host st'))).
  { unfold result, handle_all_sent, joinRoom_messages. simpl.
    rewrite (handleMessage_host host st lp) by done. simpl.
    by rewrite handleMessage_host by done. }
  assert (Hreceived : received = [snapshot host st'; snapshot host st']).
  { unfold received. rewrite Hresult. unfold X. simpl.
    rewrite sent_to_app, broadcast_is_snapshot_to_open by done.
    rewrite sent_to_snapshot_to_open by done. rewrite Hget, Hopen.
    by rewrite (sent_to_sendToPlayer host _ _ conn). }
  assert (Hreplica : handle_all joiner received h
            = mkHook (Some st')
                (match own_entry joiner (players st') with
                 | Some player => Some player
                 | None => localPlayer h
                 end)).
  { rewrite Hreceived. unfold handle_all, snapshot. simpl.
    rewrite !replica_takes_snapshot by done. unfold st'. simpl.
    by destruct (own_entry joiner _). }
  split_and!; [by rewrite Hresult|done|by rewrite Hreplica|].
  intros Hnew. rewrite Hreplica. simpl.
  unfold st', X. simpl. by rewrite own_entry_joined.
Qed.

Lemma join_handshake_witness :
  let result := handle_all_sent sample_network
                  (joinRoom_messages alice_network "Alice")
                  (createRoom sample_network "ABCD" "Host") in
  let received := sent_to alice (snd result) in
  length received = 2%nat
  ∧ gameState (handle_all alice_network received (mkHook None None))
    = gameState (fst result)
  ∧ localPlayer (handle_all alice_network received (mkHook None None))
    = Some (newPlayer alice "Alice").
Proof.
  destruct (join_handshake sample_network room_created (Some hostPlayer)
              alice_network "Alice" (mkConn alice true) (mkHook None None)
              eq_refl sample_network_wf eq_refl eq_refl eq_refl)
    as (Hhost & Hreceived & Hstate & Hlocal).
  split_and!.
  - exact (f_equal length Hreceived).
  - exact Hstate.
  - apply Hlocal. vm_compute. intros Hin.
    apply elem_of_cons in Hin as [Heq|Hin]; [discriminate Heq|].
    by apply elem_of_nil in Hin.
Defined.
(** ** Intents *)

(** X12. On the host, each intent of the local player (sentence, quiz
    answer, drawing, reaction) changes the game state and broadcasts
    exactly as the reducer does for the same intent arriving as a message
    signed with the host's own id. *)
Theorem host_intent_is_own_message network hs i :
  GameNetwork.isHost network = true →
  gameState (fst (perform network hs i))
  = gameState (fst (handleMessage network hs (intent_message network i)))
  ∧ snd (perform network hs i)
    = snd (handleMessage network hs (intent_message network i)).
Proof.
  intros Hhost. unfold handleMessage. rewrite Hhost.
  destruct i; simpl;
    unfold submitSentence, submitQuizAnswer, submitDrawing, submitReaction,
           update_and_broadcast;
    rewrite Hhost; destruct (gameState hs); done.
Qed.

Lemma host_intent_is_own_message_witness :
  let hs := mkHook (Some sample_room) (Some hostPlayer) in
  gameState (fst (perform sample_network hs (WriteSentence "Draw me")))
  = Some (reduce sample_network (mkMessage (submit_sentence "Draw me") host_id)
                 sample_room).
Proof.
  intros hs.
  destruct (host_intent_is_own_message sample_network hs
              (WriteSentence "Draw me") eq_refl) as [Hstate _].
  exact Hstate.
Defined.

Lemma elem_of_map_if_true (c : Player → bool) (f : Player → Player) ps p :
  p ∈ ps → c p = true → f p ∈ map (fun p => if c p then f p else p) ps.
Proof.
  intros Hin Hc. apply list_elem_of_In, in_map_iff.
  exists p. rewrite Hc. by rewrite <- list_elem_of_In.
Qed.

(** X13. On the host, while the local player is the host's own entry of
    [players], it stays so through the host's sentence, quiz answer and
    drawing: the entry and the local copy receive the same new sentence,
    the same recomputed score, the same drawing. *)
Theorem host_localPlayer_mirrors_entry network st p i :
  GameNetwork.isHost network = true →
  p ∈ players st → id p = GameNetwork.playerId network →
  (∀ t ty, i ≠ React t ty) →
  ∃ st' p',
    fst (perform network (mkHook (Some st) (Some p)) i)
    = mkHook (Some st') (Some p')
    ∧ p' ∈ players st'
    ∧ identity p' = identity p.
Proof.
  intros Hhost Hp Hid Hreact.
  assert (Hc : bool_decide (id p = GameNetwork.playerId network) = true)
    by by apply bool_decide_eq_true_2.
  destruct i as [s|q a|url|t ty]; [..|by destruct (Hreact t ty)];
    simpl;
    unfold submitSentence, submitQuizAnswer, submitDrawing,
           update_and_broadcast;
    rewrite Hhost; simpl; eexists _, _;
    (split_and!; [reflexivity| |done]).
  - by apply (elem_of_map_if_true
                (fun p => bool_decide (id p = GameNetwork.playerId network))
                (fun p => with_sentence p (Some s))).
  - by apply (elem_of_map_if_true
                (fun p => bool_decide (id p = GameNetwork.playerId network))
                (fun p => with_quizScore p _)).
  - by apply (elem_of_map_if_true
                (fun p => bool_decide (id p = GameNetwork.playerId network))
                (fun p => with_drawingDataUrl p (Some url))).
Qed.

Lemma host_localPlayer_mirrors_entry_witness :
  ∃ st' p',
    fst (perform sample_network (mkHook (Some sample_room) (Some hostPlayer))
           (AnswerQuiz 0 2))
    = mkHook (Some st') (Some p')
    ∧ p' ∈ players st' ∧ quizScore p' = 1%nat.
Proof.
  destruct (host_localPlayer_mirrors_entry sample_network sample_room hostPlayer
              (AnswerQuiz 0 2) eq_refl) as (st' & p' & Hrun & Hin & _).
  - apply list_elem_of_here.
  - reflexivity.
  - intros t ty H. discriminate H.
  - exists st', p'. split_and!; [exact Hrun|exact Hin|].
    injection Hrun as _ <-. reflexivity.
Defined.

Lemma perform_participant part h i :
  GameNetwork.isHost part = false →
  perform part h i = (h, GameNetwork.send part (intent_message part i)).
Proof.
  intros Hpart. destruct i; simpl;
    unfold submitSentence, submitQuizAnswer, submitDrawing, submitReaction,
           intent_message;
    by rewrite Hpart.
Qed.

(** X14. The round trip of a participant's intent. The intent leaves the
    participant's own state as it is and goes out as one message signed
    with its id, on the channel to the host (and nowhere if that channel is
    missing or not open). When the host, holding an open connection to the
    participant, handles that message, it sends the participant exactly
    one snapshot, and the participant that handles it holds the host's new
    state. *)
Theorem participant_intent_round_trip part h i host st lp conn :
  GameNetwork.isHost part = false →
  GameNetwork.isHost host = true →
  table_wf (GameNetwork.connections host) →
  GameNetwork.get (GameNetwork.connections host) (GameNetwork.playerId part)
  = Some conn →
  open conn = true →
  let m := intent_message part i in
  let st' := reduce host m st in
  perform part h i
  = (h, match GameNetwork.hostConnection part with
        | Some c => if open c then [(peer c, m)] else []
        | None => []
        end)
  ∧ fst (handleMessage host (mkHook (Some st) lp) m) = mkHook (Some st') lp
  ∧ sent_to (GameNetwork.playerId part)
            (snd (handleMessage host (mkHook (Some st) lp) m))
    = [snapshot host st']
  ∧ gameState (fst (handleMessage part h (snapshot host st'))) = Some st'.
Proof.
  intros Hpart Hhost Hwf Hget Hopen m st'. split_and!.
  - rewrite perform_participant by done. unfold GameNetwork.send.
    by rewrite Hpart.
  - by rewrite handleMessage_host.
  - rewrite handleMessage_host by done. simpl.
    rewrite hostReducer_mutating_sent by by destruct i.
    rewrite broadcast_is_snapshot_to_open by done.
    rewrite sent_to_snapshot_to_open by done. by rewrite Hget, Hopen.
  - unfold snapshot. by rewrite replica_takes_snapshot.
Qed.

Lemma participant_intent_round_trip_witness :
  let m := mkMessage (submit_drawing "data:image/png;first") alice in
  perform alice_network (mkHook None None) (SendDrawing "data:image/png;first")
  = (mkHook None None, [(host_id, m)])
  ∧ gameState (fst (handleMessage alice_network (mkHook None None)
                      (snapshot sample_network alice_drew)))
    = Some alice_drew.
Proof.
  intros m.
  destruct (participant_intent_round_trip alice_network (mkHook None None)
              (SendDrawing "data:image/png;first") sample_network sample_room
              None (mkConn alice true) eq_refl eq_refl sample_network_wf
              eq_refl eq_refl) as (Hsend & _ & _ & Hreplica).
  split; [exact Hsend|exact Hreplica].
Defined.
(** ** The slideshow and the reset *)

Lemma nextSlide_step network st lp :
  GameNetwork.isHost network = true →
  let k := length (playersWithDrawings st) in
  fst (nextSlide network (mkHook (Some st) lp))
  = mkHook
      (Some (if (Z.of_nat k <=? currentSlideIndex st + 1)%Z
             then with_phase st leaderboard
             else mkGameState (phase st) (roomCode st) (players st)
                    (currentQuestionIndex st) (quizAnswers st)
                    (quizTimeRemaining st) (drawingTimeRemaining st)
                    (currentSlideIndex st + 1) 5 (reactions st)))
      lp.
Proof.
  intros Hhost k. unfold nextSlide, set_and_broadcast. by rewrite Hhost.
Qed.

(** The state [j] calls of [nextSlide] after [startSlideshow], in closed
    form. *)
Lemma after_slides_closed network st lp j :
  GameNetwork.isHost network = true →
  let k := length (playersWithDrawings st) in
  after_slides network j (fst (startSlideshow network (mkHook (Some st) lp)))
  = mkHook
      (Some (mkGameState
               (if (j <? k `max` 1)%nat then slideshow else leaderboard)
               (roomCode st) (players st) (currentQuestionIndex st)
               (quizAnswers st) (quizTimeRemaining st)
               (drawingTimeRemaining st)
               (Z.of_nat (j `min` (k `max` 1 - 1))) 5 (reactions st)))
      lp.
Proof.
  intros Hhost k. induction j as [|j IH].
  - unfold after_slides, startSlideshow, set_and_broadcast. rewrite Hhost.
    simpl. destruct (Nat.ltb_spec 0 (k `max` 1)); [done|lia].
  - unfold after_slides in *. rewrite Nat.iter_succ, IH.
    rewrite nextSlide_step by done. f_equal.
    change (length (playersWithDrawings _)) with k.
    cbn [currentSlideIndex phase roomCode players currentQuestionIndex
         quizAnswers quizTimeRemaining drawingTimeRemaining slideTimeRemaining
         reactions].
    destruct (Nat.ltb_spec j (k `max` 1)) as [Hj|Hj];
      destruct (Nat.ltb_spec (S j) (k `max` 1)) as [HSj|HSj]; try lia;
      destruct (Z.leb_spec (Z.of_nat k)
                  (Z.of_nat (j `min` (k `max` 1 - 1)) + 1)) as [Hk|Hk];
      try lia; unfold with_phase;
      cbn [currentSlideIndex phase roomCode players currentQuestionIndex
           quizAnswers quizTimeRemaining drawingTimeRemaining
           slideTimeRemaining reactions];
      do 2 f_equal; lia.
Qed.

(** X15. The slideshow shows every drawing once. After [startSlideshow]
    with [k] drawings of participants, [j < k] calls of [nextSlide] leave
    the phase at [slideshow] with a fresh 5 s timer and the slide index at
    [j], which designates the [j]-th drawing; the [k]-th call (the first
    one when there is no drawing at all) moves to [leaderboard], and
    further calls stay there. *)
Theorem slideshow_walks_drawings network st lp j :
  GameNetwork.isHost network = true →
  let k := length (playersWithDrawings st) in
  ∃ st',
    after_slides network j (fst (startSlideshow network (mkHook (Some st) lp)))
    = mkHook (Some st') lp
    ∧ players st' = players st
    ∧ ((j < k)%nat →
       phase st' = slideshow ∧ currentSlideIndex st' = Z.of_nat j
       ∧ slideTimeRemaining st' = 5
       ∧ currentPlayer st' = playersWithDrawings st !! j
       ∧ is_Some (currentPlayer st'))
    ∧ ((k `max` 1 ≤ j)%nat → phase st' = leaderboard).
Proof.
  intros Hhost k. eexists. split; [by apply after_slides_closed|].
  fold k. split_and!; [done| |].
  - intros Hj. simpl.
    destruct (Nat.ltb_spec j (k `max` 1)); [|lia].
    replace (j `min` (k `max` 1 - 1))%nat with j by lia.
    split_and!; try done.
    + unfold currentPlayer. simpl.
      destruct (Z.ltb_spec (Z.of_nat j) 0); [lia|]. by rewrite Nat2Z.id.
    + unfold currentPlayer. simpl.
      destruct (Z.ltb_spec (Z.of_nat j) 0); [lia|]. rewrite Nat2Z.id.
      by apply lookup_lt_is_Some_2.
  - intros Hj. simpl. by destruct (Nat.ltb_spec j (k `max` 1)); [lia|].
Qed.
Lemma slideshow_walks_drawings_witness :
  ∃ st',
    after_slides sample_network 1
      (fst (startSlideshow sample_network (mkHook (Some alice_drew) None)))
    = mkHook (Some st') None
    ∧ phase st' = leaderboard.
Proof.
  destruct (slideshow_walks_drawings sample_network alice_drew None 1 eq_refl)
    as (st' & Hrun & _ & _ & Hend).
  exists st'. split; [exact Hrun|]. apply Hend. vm_compute. lia.
Defined.

Lemma map_cleared_identity ps : map identity (map cleared ps) = map identity ps.
Proof. rewrite map_map. by apply map_ext. Qed.

(** X16. [resetGame] on the host brings the room back to the state of
    [createInitialGameState] for the same room code, except that the
    players stay: same ids, names and host flags in the same order, every
    other field of a player cleared. The state it leaves has no recorded
    answers or votes, so scores and counts agree with the records, and
    resetting twice is the same as resetting once. *)
Theorem resetGame_restores_initial network st lp :
  GameNetwork.isHost network = true →
  let st' := with_players (createInitialGameState (roomCode st))
                          (map cleared (players st)) in
  resetGame network (mkHook (Some st) lp)
  = (mkHook (Some st') lp, snapshot_to_open network st')
  ∧ map identity (players st') = map identity (players st)
  ∧ derived_consistent st'
  ∧ exclusive_votes st'
  ∧ fst (resetGame network (fst (resetGame network (mkHook (Some st) lp))))
    = fst (resetGame network (mkHook (Some st) lp)).
Proof.
  intros Hhost st'.
  assert (Hreset : ∀ s l, resetGame network (mkHook (Some s) l)
            = (mkHook (Some (with_players (createInitialGameState (roomCode s))
                                          (map cleared (players s)))) l,
               snapshot_to_open network
                 (with_players (createInitialGameState (roomCode s))
                               (map cleared (players s))))).
  { intros s l. unfold resetGame, set_and_broadcast. rewrite Hhost. simpl.
    by rewrite broadcast_is_snapshot_to_open. }
  split_and!.
  - apply Hreset.
  - apply map_cleared_identity.
  - intros p Hp. simpl in Hp.
    apply list_elem_of_In, in_map_iff in Hp as (p0 & <- & _). done.
  - by apply initial_votes_exclusive.
  - rewrite !Hreset. cbn [fst]. rewrite Hreset. cbn [fst].
    do 2 f_equal.
    change (roomCode (with_players _ _)) with (roomCode st).
    change (players (with_players _ (map cleared (players st))))
      with (map cleared (players st)).
    f_equal. rewrite map_map. by apply map_ext.
Qed.

Lemma resetGame_restores_initial_witness :
  ∃ st', resetGame sample_network (mkHook (Some alice_played) None)
         = (mkHook (Some st') None, snapshot_to_open sample_network st')
    ∧ map id (players st') = [host_id; alice; bob]
    ∧ map quizScore (players st') = [0; 0; 0]%nat
    ∧ quizAnswers st' = ∅ ∧ phase st' = lobby.
Proof.
  destruct (resetGame_restores_initial sample_network alice_played None eq_refl)
    as (Hrun & _).
  eexists. split; [exact Hrun|]. split_and!; reflexivity.
Defined.
(** ** The assignment of sentences *)

Lemma at_mod_elem derangedSentences index d :
  at_mod derangedSentences index = Some d → d ∈ derangedSentences.
Proof.
  unfold at_mod. destruct (length derangedSentences =? 0)%nat; [done|].
  apply list_elem_of_lookup_2.
Qed.

Lemma at_mod_in_range derangedSentences index :
  (index < length derangedSentences)%nat →
  at_mod derangedSentences index = derangedSentences !! index.
Proof.
  intros Hlt. unfold at_mod.
  destruct (Nat.eqb_spec (length derangedSentences) 0) as [?|_]; [lia|].
  by rewrite Nat.mod_small.
Qed.

Lemma assign_other participants index derangedSentences acc acc' k :
  assign participants index derangedSentences acc = Returns acc' →
  k ∉ map id participants → acc' !! k = acc !! k.
Proof.
  revert index acc. induction participants as [|p ps IH]; intros index acc.
  - by intros [= <-].
  - simpl. destruct (at_mod derangedSentences index) as [d|]; [|done].
    rewrite not_elem_of_cons. intros Hrun [Hne Hnin].
    rewrite (IH _ _ Hrun Hnin). by rewrite lookup_insert_ne.
Qed.

(** With distinct ids, each participant is handed the item at its own
    index (modulo the number of items). *)
Lemma assign_lookup participants index derangedSentences acc acc' i p :
  NoDup (map id participants) →
  assign participants index derangedSentences acc = Returns acc' →
  participants !! i = Some p →
  ∃ d, at_mod derangedSentences (index + i) = Some d
       ∧ acc' !! id p = Some (Item.sentence d).
Proof.
  revert index acc i.
  induction participants as [|p0 ps IH]; intros index acc i Hnd Hrun Hp;
    [done|].
  simpl in Hnd. apply NoDup_cons in Hnd as [Hp0 Hnd]. simpl in Hrun.
  destruct (at_mod derangedSentences index) as [d0|] eqn:Hd0; [|done].
  destruct i as [|i]; simpl in Hp.
  - injection Hp as <-. exists d0. rewrite Nat.add_0_r. split; [done|].
    rewrite (assign_other _ _ _ _ _ _ Hrun Hp0). apply lookup_insert_eq.
  - destruct (IH _ _ i Hnd Hrun Hp) as (d & Hd & Hacc).
    exists d. split; [|done]. by rewrite <- Nat.add_succ_comm.
Qed.

Lemma assign_keeps_from participants index derangedSentences acc acc' k :
  assign participants index derangedSentences acc = Returns acc' →
  (∃ d, d ∈ derangedSentences ∧ acc !! k = Some (Item.sentence d)) →
  ∃ d, d ∈ derangedSentences ∧ acc' !! k = Some (Item.sentence d).
Proof.
  revert index acc. induction participants as [|p ps IH]; intros index acc.
  - by intros [= <-].
  - simpl. destruct (at_mod derangedSentences index) as [d0|] eqn:Hd0; [|done].
    intros Hrun (d & Hd & Hk). apply (IH _ _ Hrun).
    destruct (decide (id p = k)) as [<-|Hne].
    + exists d0. split; [by eapply at_mod_elem|apply lookup_insert_eq].
    + exists d. by rewrite lookup_insert_ne.
Qed.

(** Whatever the ids, each participant is handed the sentence of one of
    the items. *)
Lemma assign_from_items participants index derangedSentences acc acc' p :
  assign participants index derangedSentences acc = Returns acc' →
  p ∈ participants →
  ∃ d, d ∈ derangedSentences ∧ acc' !! id p = Some (Item.sentence d).
Proof.
  revert index acc. induction participants as [|p0 ps IH]; intros index acc.
  - intros _ Hin. by apply elem_of_nil in Hin.
  - simpl. destruct (at_mod derangedSentences index) as [d0|] eqn:Hd0; [|done].
    intros Hrun [->|Hin]%elem_of_cons; [|by eapply IH].
    apply (assign_keeps_from _ _ _ _ _ _ Hrun).
    exists d0. split; [by eapply at_mod_elem|apply lookup_insert_eq].
Qed.

(** An item of the sentence list is the item of an author: a participant
    with a non-empty sentence, which is the item's. *)
Lemma item_of_author st d :
  d ∈ map item_of (List.filter (fun p => truthy (sentence p)) (participants_of st)) →
  ∃ author, author ∈ players st ∧ isHost author = false
            ∧ truthy (sentence author) = true
            ∧ id author = Item.authorId d
            ∧ sentence author = Some (Item.sentence d).
Proof.
  intros Hd. apply list_elem_of_fmap in Hd as (author & -> & Hin).
  apply list_elem_of_In, filter_In in Hin as [Hin Htruthy].
  unfold participants_of in Hin. apply filter_In in Hin as [Hin Hpart].
  exists author. rewrite list_elem_of_In. split_and!; try done.
  - by apply negb_true_iff.
  - unfold item_of. simpl. by destruct (sentence author).
Qed.

Lemma startDrawingPhase_unfold random network st lp :
  GameNetwork.isHost network = true →
  startDrawingPhase random network (mkHook (Some st) lp)
  = let derangedSentences :=
      createDerangement random
        (map item_of
             (List.filter (fun p => truthy (sentence p)) (participants_of st))) in
    match assign (participants_of st) 0 derangedSentences ∅ with
    | Throws e => Throws e
    | Returns assignments =>
        let assigned (p : Player) :=
          with_assignedSentence p
            (if isHost p then None else assignments !! id p) in
        let newState :=
          mkGameState drawing (roomCode st) (map assigned (players st))
            (currentQuestionIndex st) (quizAnswers st) (quizTimeRemaining st)
            DRAWING_DURATION (currentSlideIndex st) (slideTimeRemaining st)
            (reactions st) in
        Returns (mkHook (Some newState) (assigned <$> lp),
                 snapshot_to_open network newState)
    end.
Proof.
  intros Hhost. unfold startDrawingPhase. rewrite Hhost. simpl.
  fold (participants_of st).
  destruct (assign _ _ _ _); [|done].
  by rewrite broadcast_is_snapshot_to_open.
Qed.

(** X17. When [startDrawingPhase] returns on the host, the phase is
    [drawing] with the full drawing time, the snapshot is broadcast, the
    players keep their identity and every field but [assignedSentence];
    a host is assigned nothing, and every participant is assigned the
    (non-empty) sentence of some participant of the room. *)
Theorem startDrawingPhase_assigns random network st lp result :
  GameNetwork.isHost network = true →
  startDrawingPhase random network (mkHook (Some st) lp) = Returns result →
  ∃ st',
    gameState (fst result) = Some st'
    ∧ snd result = snapshot_to_open network st'
    ∧ phase st' = drawing
    ∧ drawingTimeRemaining st' = DRAWING_DURATION
    ∧ quizAnswers st' = quizAnswers st ∧ reactions st' = reactions st
    ∧ Forall2 (fun p p' =>
                 p' = with_assignedSentence p (assignedSentence p')
                 ∧ if isHost p then assignedSentence p' = None
                   else ∃ author,
                          author ∈ players st ∧ isHost author = false
                          ∧ truthy (sentence author) = true
                          ∧ assignedSentence p' = sentence author)
              (players st) (players st').
Proof.
  intros Hhost. rewrite startDrawingPhase_unfold by done. cbv zeta.
  destruct (assign _ _ _ _) as [assignments|] eqn:Hassign; [|done].
  intros [= <-]. eexists. split_and!; try reflexivity.
  cbn [players]. apply Forall2_fmap_r, Forall_Forall2_diag, Forall_forall.
  intros p Hp. split; [done|]. simpl.
  destruct (isHost p) eqn:Hhostp; [done|].
  destruct (assign_from_items _ _ _ _ _ p Hassign) as (d & Hd & ->).
  { unfold participants_of. rewrite list_elem_of_In, filter_In.
    rewrite <- list_elem_of_In. by rewrite Hhostp. }
  rewrite createDerangement_Permutation in Hd.
  destruct (item_of_author st d Hd) as (author & ? & ? & ? & _ & Hs).
  exists author. split_and!; [done..|]. by rewrite Hs.
Qed.
Lemma startDrawingPhase_assigns_witness :
  ∃ result st',
    startDrawingPhase always_zero full_network quiz_started = Returns result
    ∧ gameState (fst result) = Some st'
    ∧ map drawing_view (players st')
      = [(host_id, None, None);
         (zed, Some "Z", Some "A");
         (alice, Some "A", Some "B");
         (bob, Some "B", Some "Z")].
Proof.
  eassert (Hrun : startDrawingPhase always_zero full_network
                    (mkHook (Some (default room_created (gameState quiz_started)))
                            (Some hostPlayer))
                  = Returns _) by (vm_compute; reflexivity).
  destruct (startDrawingPhase_assigns always_zero full_network _ _ _ eq_refl Hrun)
    as (st' & Hst & _).
  eexists _, st'. split_and!; [exact Hrun|exact Hst|].
  injection Hst as <-. reflexivity.
Defined.

Lemma filter_all_true {A} (f : A → bool) (l : list A) :
  Forall (fun x => f x = true) l → List.filter f l = l.
Proof.
  induction 1 as [|x l Hx _ IH]; simpl; [done|]. by rewrite Hx, IH.
Qed.

(** X18. When every participant wrote a sentence, there are at least two
    of them and their ids are distinct, [startDrawingPhase] returns on the
    host and hands every participant the sentence of another participant;
    if the sentences are pairwise different too, nobody is handed a text
    equal to the own one. This holds for every outcome of the shuffle. *)
Theorem everyone_draws_anothers_sentence random network st lp :
  GameNetwork.isHost network = true →
  (2 ≤ length (participants_of st))%nat →
  NoDup (map id (participants_of st)) →
  Forall (fun p => truthy (sentence p) = true) (participants_of st) →
  ∃ result st',
    startDrawingPhase random network (mkHook (Some st) lp) = Returns result
    ∧ gameState (fst result) = Some st'
    ∧ Forall2 (fun p p' =>
                 isHost p = false →
                 ∃ author,
                   author ∈ participants_of st ∧ id author ≠ id p
                   ∧ assignedSentence p' = sentence author
                   ∧ (NoDup (map sentence (participants_of st)) →
                      assignedSentence p' ≠ sentence p))
              (players st) (players st').
Proof.
  intros Hhost Hlen Hnd Hall.
  rewrite startDrawingPhase_unfold by done. cbv zeta.
  rewrite (filter_all_true _ _ Hall).
  set (sentences := map item_of (participants_of st)).
  assert (Hids : map Item.authorId sentences = map id (participants_of st)).
  { unfold sentences. rewrite map_map. by apply map_ext. }
  destruct (createDerangement_spec random sentences) as [Hperm Hnfp].
  { by rewrite Hids. }
  { unfold sentences. by rewrite length_map. }
  assert (Hdlen : length (createDerangement random sentences)
                  = length (participants_of st)).
  { rewrite Hperm. unfold sentences. by rewrite length_map. }
  destruct (assign_returns (participants_of st) 0
              (createDerangement random sentences) ∅) as [assignments Hassign].
  { intros Hnil. rewrite Hnil in Hdlen. simpl in Hdlen. lia. }
  rewrite Hassign. eexists _, _. split_and!; [reflexivity..|].
  cbn [players]. apply Forall2_fmap_r, Forall_Forall2_diag, Forall_forall.
  intros p Hp Hhostp. simpl. rewrite Hhostp.
  assert (Hpart : p ∈ participants_of st).
  { unfold participants_of. rewrite list_elem_of_In, filter_In.
    rewrite <- list_elem_of_In. by rewrite Hhostp. }
  apply list_elem_of_lookup in Hpart as [i Hi].
  destruct (assign_lookup _ _ _ _ _ i p Hnd Hassign Hi) as (d & Hd & ->).
  simpl in Hd. rewrite at_mod_in_range in Hd
    by (rewrite Hdlen; by eapply lookup_lt_Some).
  assert (Hitem : sentences !! i = Some (item_of p)).
  { unfold sentences. by rewrite list_lookup_fmap, Hi. }
  pose proof (Hnfp i _ _ Hitem Hd) as Hother. simpl in Hother.
  assert (Hin : d ∈ sentences).
  { rewrite <- Hperm. by eapply list_elem_of_lookup_2. }
  apply list_elem_of_fmap in Hin as (author & -> & Hauthor).
  assert (Hsent : sentence author = Some (Item.sentence (item_of author))).
  { rewrite Forall_forall in Hall. specialize (Hall author Hauthor).
    unfold item_of. simpl. by destruct (sentence author). }
  exists author. split_and!.
  - done.
  - done.
  - symmetry. exact Hsent.
  - intros Hdistinct Heq. rewrite <- Hsent in Heq.
    pose proof Hauthor as Hauthor'.
    apply list_elem_of_lookup in Hauthor' as [j Hj].
    assert (i = j) as ->.
    { apply (NoDup_lookup _ _ _ (sentence p) Hdistinct);
        rewrite list_lookup_fmap; [by rewrite Hi|rewrite Hj; simpl; by rewrite Heq]. }
    rewrite Hi in Hj. injection Hj as ->. done.
Qed.
Lemma everyone_draws_anothers_sentence_witness :
  ∃ result st',
    startDrawingPhase always_zero full_network quiz_started = Returns result
    ∧ gameState (fst result) = Some st'
    ∧ length (players st') = 4%nat.
Proof.
  destruct (everyone_draws_anothers_sentence always_zero full_network
              (default room_created (gameState quiz_started))
              (Some hostPlayer) eq_refl)
    as (result & st' & Hrun & Hst & Hall).
  - vm_compute. lia.
  - apply (bool_decide_unpack _). vm_compute. reflexivity.
  - apply (bool_decide_unpack _). vm_compute. reflexivity.
  - exists result, st'. split_and!; [exact Hrun|exact Hst|].
    apply Forall2_length in Hall. rewrite <- Hall. reflexivity.
Defined.

Lemma no_sentence_throws random network st lp :
  GameNetwork.isHost network = true →
  participants_of st ≠ [] →
  List.filter (fun p => truthy (sentence p)) (participants_of st) = [] →
  startDrawingPhase random network (mkHook (Some st) lp) = Throws TypeError.
Proof.
  intros Hhost Hsome Hnone.
  rewrite startDrawingPhase_unfold by done. cbv zeta. rewrite Hnone.
  by destruct (participants_of st).
Qed.

(** X19. On the host, [startDrawingPhase] returns exactly when the room
    has no participant or some participant holds a non-empty sentence;
    in the one remaining case, participants but no sentence, it throws. *)
Theorem startDrawingPhase_returns_iff random network st lp :
  GameNetwork.isHost network = true →
  let authors :=
    List.filter (fun p => truthy (sentence p)) (participants_of st) in
  ((∃ result,
      startDrawingPhase random network (mkHook (Some st) lp) = Returns result)
   ↔ participants_of st = [] ∨ authors ≠ [])
  ∧ (participants_of st ≠ [] → authors = [] →
     startDrawingPhase random network (mkHook (Some st) lp) = Throws TypeError).
Proof.
  intros Hhost authors. subst authors. split; [split|].
  - intros [result Hrun].
    assert (Hcases : participants_of st = [] ∨ participants_of st ≠ [])
      by (destruct (participants_of st); [by left|by right]).
    destruct Hcases as [?|Hsome]; [by left|right].
    intros Hnone.
    by rewrite (no_sentence_throws random network st lp) in Hrun.
  - intros [Hempty|Hauthor].
    + rewrite startDrawingPhase_unfold by done. cbv zeta.
      rewrite Hempty. simpl. by eexists.
    + destruct (List.filter _ (participants_of st)) as [|p ps] eqn:Hp; [done|].
      assert (Hin : In p (List.filter (fun p => truthy (sentence p))
                                      (participants_of st)))
        by (rewrite Hp; by left).
      unfold participants_of in Hin.
      apply filter_In in Hin as [Hin Htruthy].
      apply filter_In in Hin as [Hin Hpart].
      apply (startDrawingPhase_returns random network st lp p);
        [by apply list_elem_of_In|by apply negb_true_iff|done].
  - intros Hsome Hnone. by apply no_sentence_throws.
Qed.

Lemma startDrawingPhase_returns_iff_witness :
  (∃ result,
     startDrawingPhase always_zero full_network zed_emptied = Returns result)
  ∧ startDrawingPhase always_zero full_network all_emptied = Throws TypeError.
Proof.
  destruct (startDrawingPhase_returns_iff always_zero full_network
              (default room_created (gameState zed_emptied))
              (Some hostPlayer) eq_refl) as [[_ Hret] _].
  destruct (startDrawingPhase_returns_iff always_zero full_network
              (default room_created (gameState all_emptied))
              (Some hostPlayer) eq_refl) as [_ Hthrow].
  split.
  - apply Hret. right. vm_compute. discriminate.
  - apply Hthrow; [vm_compute; discriminate|reflexivity].
Defined.
(** ** The leaderboard *)








(** ** Clocks and questions *)

Lemma startQuiz_host network st lp :
  GameNetwork.isHost network = true →
  fst (startQuiz network (mkHook (Some st) lp))
  = mkHook (Some (quiz_at st 0 QUIZ_DURATION)) lp.
Proof. intros Hhost. unfold startQuiz. by rewrite Hhost. Qed.

Lemma quizTimer_running random network st lp index time :
  GameNetwork.isHost network = true → (0 < time)%Z →
  quizTimer random network (mkHook (Some (quiz_at st index time)) lp)
  = Returns (mkHook (Some (quiz_at st index (time - 1))) lp,
             snapshot_to_open network (quiz_at st index (time - 1))).
Proof.
  intros Hhost Htime. unfold quizTimer. rewrite Hhost. simpl.
  destruct (Z.leb_spec time 0); [lia|].
  unfold updateQuizTime, update_and_broadcast. rewrite Hhost. simpl.
  by rewrite broadcast_is_snapshot_to_open.
Qed.

(** X21. The quiz clock. From [startQuiz] on the host, [n ≤ 90] rounds of
    the timer leave the quiz phase with [90 - n] seconds on the clock and
    nothing else changed, so the clock reaches 0 after exactly 90 rounds
    and never goes below; the next round is the call of
    [startDrawingPhase]. *)
Theorem quiz_clock_counts_down random network st lp n :
  GameNetwork.isHost network = true →
  (n ≤ 90)%nat →
  let started := fst (startQuiz network (mkHook (Some st) lp)) in
  let at_n := mkHook (Some (quiz_at st 0 (QUIZ_DURATION - Z.of_nat n))) lp in
  rounds (quizTimer random network) n started = Returns at_n
  ∧ (n = 90%nat →
     quizTimer random network at_n = startDrawingPhase random network at_n).
Proof.
  intros Hhost Hn started at_n. split.
  - unfold at_n, started. rewrite startQuiz_host by done.
    clear started at_n. induction n as [|n IH].
    + reflexivity.
    + cbn [rounds]. rewrite IH by lia.
      rewrite quizTimer_running by (try done; unfold QUIZ_DURATION; lia).
      cbn [fst]. do 4 f_equal. lia.
  - intros ->. unfold at_n, quizTimer. rewrite Hhost. reflexivity.
Qed.

Lemma quiz_clock_counts_down_witness :
  rounds (quizTimer always_zero full_network) 90
         (fst (startQuiz full_network (mkHook (Some sample_room) None)))
  = Returns (mkHook (Some (quiz_at sample_room 0 0)) None).
Proof.
  exact (proj1 (quiz_clock_counts_down always_zero full_network sample_room
                  None 90 eq_refl (le_n 90))).
Defined.

Lemma drawingTimer_step network st lp time :
  GameNetwork.isHost network = true →
  fst (drawingTimer network (mkHook (Some (drawing_at st time)) lp))
  = mkHook (Some (drawing_at st (if (time <=? 0)%Z then time else time - 1))) lp.
Proof.
  intros Hhost. unfold drawingTimer. rewrite Hhost. simpl.
  destruct (Z.leb_spec time 0); [done|].
  unfold updateDrawingTime, update_and_broadcast. by rewrite Hhost.
Qed.

(** X22. The drawing clock. On the host, [n] rounds of the drawing timer
    take a clock at [time ≥ 0] to [max 0 (time - n)]: it counts down to 0
    and stays there, it never shows a negative time, and no round changes
    the phase or anything but the clock; the move to the slideshow is left
    to the host. *)
Theorem drawing_clock_stops_at_zero network st lp time n :
  GameNetwork.isHost network = true →
  (0 ≤ time)%Z →
  Nat.iter n (fun h => fst (drawingTimer network h))
           (mkHook (Some (drawing_at st time)) lp)
  = mkHook (Some (drawing_at st (Z.max 0 (time - Z.of_nat n)))) lp.
Proof.
  intros Hhost Htime. induction n as [|n IH].
  - cbn [Nat.iter nat_rect]. do 3 f_equal. lia.
  - rewrite Nat.iter_succ, IH, drawingTimer_step by done.
    do 3 f_equal. destruct (Z.leb_spec (Z.max 0 (time - Z.of_nat n)) 0); lia.
Qed.

Lemma drawing_clock_stops_at_zero_witness :
  Nat.iter 125 (fun h => fst (drawingTimer full_network h))
           (mkHook (Some (drawing_at sample_room DRAWING_DURATION)) None)
  = mkHook (Some (drawing_at sample_room 0)) None.
Proof.
  exact (drawing_clock_stops_at_zero full_network sample_room None
           DRAWING_DURATION 125 eq_refl ltac:(unfold DRAWING_DURATION; lia)).
Defined.

Lemma nextQuestion_advances random network st lp index time :
  GameNetwork.isHost network = true → (index + 1 < 8)%Z →
  nextQuestion random network (mkHook (Some (quiz_at st index time)) lp)
  = Returns (mkHook (Some (quiz_at st (index + 1) time)) lp,
             snapshot_to_open network (quiz_at st (index + 1) time)).
Proof.
  intros Hhost Hindex. unfold nextQuestion. rewrite Hhost. simpl.
  destruct (Z.leb_spec (Z.of_nat 8) (index + 1)); [lia|].
  by rewrite broadcast_is_snapshot_to_open.
Qed.

(** X23. The question index stays inside the quiz. From [startQuiz] on the
    host, [n ≤ 7] calls of [nextQuestion] leave the quiz phase at question
    [n], an index of [QUIZ_QUESTIONS], with the clock untouched; the call
    after question 7 is the call of [startDrawingPhase], so the index
    never reaches the number of questions. *)
Theorem nextQuestion_stays_in_range random network st lp n :
  GameNetwork.isHost network = true →
  (n ≤ 7)%nat →
  let started := fst (startQuiz network (mkHook (Some st) lp)) in
  let at_n := mkHook (Some (quiz_at st (Z.of_nat n) QUIZ_DURATION)) lp in
  rounds (nextQuestion random network) n started = Returns at_n
  ∧ is_Some (QUIZ_QUESTIONS !! n)
  ∧ (n = 7%nat →
     nextQuestion random network at_n = startDrawingPhase random network at_n).
Proof.
  intros Hhost Hn started at_n. split_and!.
  - unfold at_n, started. rewrite startQuiz_host by done.
    clear started at_n. induction n as [|n IH]; [done|].
    cbn [rounds]. rewrite IH by lia.
    rewrite nextQuestion_advances by (try done; lia).
    cbn [fst]. do 4 f_equal. lia.
  - apply lookup_lt_is_Some_2. simpl. lia.
  - intros ->. unfold at_n, nextQuestion. rewrite Hhost. reflexivity.
Qed.

Lemma nextQuestion_stays_in_range_witness :
  rounds (nextQuestion always_zero full_network) 7
         (fst (startQuiz full_network (mkHook (Some sample_room) None)))
  = Returns (mkHook (Some (quiz_at sample_room 7 QUIZ_DURATION)) None).
Proof.
  exact (proj1 (nextQuestion_stays_in_range always_zero full_network
                  sample_room None 7 eq_refl (le_n 7))).
Defined.
